(** * RO-TP: the transportation-problem form (src/logistics.py)

    A shallow embedding of [TransportApp.solve_transport] and of the pieces
    of Gurobi and Qt it drives, followed by the properties of the model
    builder and of the result formatter.

    Numbers.  The program computes with Python floats.  Every finite float
    is a rational, and a linear program is a statement about exact
    arithmetic, so table entries, coefficients and solver values are
    rationals ([Q]) here and [+], [*], [abs] and the comparisons are the
    exact ones.  The embedding computes what the program computes
    wherever the float operations involved are exact, as they are on
    whole numbers below 2^53; where a float addition or product rounds,
    the embedding has the exact quantity and the program a neighbouring
    float.  The rounding of float arithmetic, infinities and NaN are
    outside the embedding.  Arithmetic results are compared with [==]
    ([Qeq]); values that the program merely copies are compared with
    [=].

    Text.  Displayed text is kept as the f-string that produces it
    ([fstring]): literal fragments and the interpolated values with their
    format, so [f"{val:.2f}"] is [[F2 val]].  The number such a cell
    puts on the screen is [val] rounded to two decimals ([fixed2]), not
    [val].  Widget styling (colours, alignment, resize modes) is not
    modelled. *)

From Stdlib Require Import QArith Qabs Qminmax Qround Lqa String.
From stdpp Require Import base option list gmap strings.

Open Scope Q_scope.

(** ** Python *)

Module Py.

(** [range(n)] *)
Definition range (n : nat) : list nat := seq 0 n.

(** The builtin [sum] over numbers: a left fold that starts at [0].  The
    additions are the exact ones: this is Python's result when no
    addition of the fold rounds, and the exact total next to which
    Python's result lies when one does. *)
Definition sum (l : list Q) : Q := fold_left Qplus l 0.

(** An f-string: literal text and interpolated values. *)
Inductive piece : Type :=
| Lit (s : string)        (* literal text *)
| Repr (q : Q)            (* {q}     *)
| F2 (q : Q)              (* {q:.2f} *)
| F3 (q : Q)              (* {q:.3f} *)
| Pct2 (q : Q)            (* {q:.2%} *)
| Dec (z : Z)             (* {z} for an int *)
| StrExc.                 (* {str(e)} for the caught exception *)

Definition fstring : Type := list piece.

(** Rounding to the nearest integer, a tie going to the even one. *)
Definition round_half_even (q : Q) : Z :=
  let f := Qfloor q in
  match Qcompare (q - inject_Z f) (1 # 2) with
  | Lt => f
  | Gt => (f + 1)%Z
  | Eq => if Z.even f then f else (f + 1)%Z
  end.

(** The number that [f"{q:.2f}"] writes.  The format rounds the exact
    value of the float to two decimals, a tie going to the even digit:
    [f"{0.125:.2f}"] is [0.12] and [f"{0.375:.2f}"] is [0.38]. *)
Definition fixed2 (q : Q) : Q := round_half_even (q * 100) # 100.

(** The number a cell rendered with [f"{q:.2f}"] shows: [q] in two
    decimals. *)
Definition shown (t : fstring) : option Q :=
  match t with
  | [F2 q] => Some (fixed2 q)
  | _ => None
  end.

(** A computation that may raise: [None] is a raised exception.  The
    program catches every exception with one handler that does not
    look at its kind, only at its message, so the kind is not kept. *)
Fixpoint foldlM {A B : Type} (f : A → B → option A) (a : A) (l : list B)
  : option A :=
  match l with
  | [] => Some a
  | b :: l' => a' ← f a b; foldlM f a' l'
  end.

End Py.

(** ** The solver boundary (gurobipy) *)

Module Grb.

Definition MINIMIZE : Z := 1.
Definition OPTIMAL : Z := 2.
Definition INFEASIBLE : Z := 3.
Definition UNBOUNDED : Z := 5.
Definition NUMERIC : Z := 12.

(** A variable as [addVar(lb=..., obj=..., name=...)] declares it; the
    upper bound keeps its default (none) and the type is continuous. *)
Record Var : Type := mkVar { lb : Q; obj : Q; VarName : Py.fstring }.

(** A handle on a variable: its column index in the model. *)
Definition handle : Type := nat.

(** A linear expression: a constant and coefficient-variable terms. *)
Record LinExpr : Type := mkLin { constant : Q; terms : list (Q * handle) }.

Inductive Sense : Type := LESS_EQUAL | GREATER_EQUAL.

Global Instance Sense_eq_dec : EqDecision Sense.
Proof. solve_decision. Defined.

Record Constr : Type :=
  mkConstr { lhs : LinExpr; sense : Sense; rhs : Q; ConstrName : Py.fstring }.

Record Model : Type := mkModel {
  ModelName : string;
  OutputFlag : Z;
  modelSense : Z;
  vars : list Var;
  constrs : list Constr
}.

(** [Model(name)]: an empty model, console output on, minimisation. *)
Definition new (name : string) : Model :=
  mkModel name 1 MINIMIZE [] [].

(** [model.setParam('OutputFlag', v)] *)
Definition setOutputFlag (M : Model) (v : Z) : Model :=
  mkModel (ModelName M) v (modelSense M) (vars M) (constrs M).

(** [model.modelSense = s] *)
Definition setModelSense (M : Model) (s : Z) : Model :=
  mkModel (ModelName M) (OutputFlag M) s (vars M) (constrs M).

(** [model.addVar(lb=l, obj=c, name=nm)]: a new last column. *)
Definition addVar (M : Model) (l c : Q) (nm : Py.fstring)
    : Model * handle :=
  (mkModel (ModelName M) (OutputFlag M) (modelSense M)
           (vars M ++ [mkVar l c nm]) (constrs M),
   length (vars M)).

(** [model.addConstr(lhs <= rhs, nm)] and [model.addConstr(lhs >= rhs, nm)] *)
Definition addConstr (M : Model) (e : LinExpr) (s : Sense) (r : Q)
    (nm : Py.fstring) : Model :=
  mkModel (ModelName M) (OutputFlag M) (modelSense M) (vars M)
          (constrs M ++ [mkConstr e s r nm]).

(** [e + v] for an expression [e] and a variable [v]. *)
Definition add_var (e : LinExpr) (v : handle) : LinExpr :=
  mkLin (constant e) (terms e ++ [(1, v)]).

(** Python's [sum] over a generator of variables.  From the first
    variable on, [0 + v] is a linear expression; over no variable at all
    the result is the integer [0], from which the comparison makes a
    [bool] and no constraint: that case is an exception here. *)
Definition sum (vs : list handle) : option LinExpr :=
  match vs with
  | [] => None
  | _ => Some (fold_left add_var vs (mkLin 0 []))
  end.

(** What [model.optimize()] leaves behind, as far as the program reads
    it.  [X k] is the value [v.x] of the variable with handle [k];
    [MIPGap] and [IterCount] are attributes the program probes with
    [hasattr] ([None]: absent). *)
Record Outcome : Type := mkOutcome {
  status : Z;
  X : handle → Q;
  objVal : Q;
  Runtime : Q;
  MIPGap : option Q;
  IterCount : option Q
}.

(** *** Meaning of a model *)

Definition valuation : Type := handle → Q.

Definition eval (ρ : valuation) (e : LinExpr) : Q :=
  fold_right (λ t acc, fst t * ρ (snd t) + acc) (constant e) (terms e).

Definition sat (ρ : valuation) (c : Constr) : Prop :=
  match sense c with
  | LESS_EQUAL => eval ρ (lhs c) <= rhs c
  | GREATER_EQUAL => rhs c <= eval ρ (lhs c)
  end.

Definition feasible (M : Model) (ρ : valuation) : Prop :=
  (∀ k v, vars M !! k = Some v → lb v <= ρ k) ∧ Forall (sat ρ) (constrs M).

(** The objective function: the sum over the columns of [obj * value]. *)
Fixpoint objective_from (k : handle) (vs : list Var) (ρ : valuation) : Q :=
  match vs with
  | [] => 0
  | v :: vs' => obj v * ρ k + objective_from (S k) vs' ρ
  end.

Definition objective (M : Model) (ρ : valuation) : Q :=
  objective_from 0%nat (vars M) ρ.

(** What the program relies on when the solver answers [OPTIMAL] for a
    minimisation: the values are feasible, the objective value is the
    objective function at them, and no feasible point does better.  (The
    solver's own tolerances are part of the rounding left out above.) *)
Definition sound (M : Model) (o : Outcome) : Prop :=
  status o = OPTIMAL →
  feasible M (X o) ∧ objVal o == objective M (X o) ∧
  ∀ ρ, feasible M ρ → objVal o <= objective M ρ.

End Grb.

(** ** The widgets (PyQt6) *)

Module Qt.

Inductive StandardButton : Type := Yes | No.

Global Instance StandardButton_eq_dec : EqDecision StandardButton.
Proof. solve_decision. Defined.

(** A table of displayed cells.  An item outside the current row and
    column counts does not exist: shrinking drops it and [setItem]
    ignores it. *)
Record QTableWidget : Type := mkTable {
  rowCount : nat;
  columnCount : nat;
  horizontalHeaderLabels : list Py.fstring;
  verticalHeaderLabels : list Py.fstring;
  items : gmap (nat * nat) Py.fstring
}.

Definition setRowCount (T : QTableWidget) (r : nat) : QTableWidget :=
  mkTable r (columnCount T) (horizontalHeaderLabels T)
          (verticalHeaderLabels T)
          (filter (λ kv, (kv.1.1 < r)%nat) (items T)).

Definition setColumnCount (T : QTableWidget) (c : nat) : QTableWidget :=
  mkTable (rowCount T) c (horizontalHeaderLabels T)
          (verticalHeaderLabels T)
          (filter (λ kv, (kv.1.2 < c)%nat) (items T)).

Definition setHorizontalHeaderLabels (T : QTableWidget)
    (l : list Py.fstring) : QTableWidget :=
  mkTable (rowCount T) (columnCount T) l (verticalHeaderLabels T) (items T).

Definition setVerticalHeaderLabels (T : QTableWidget)
    (l : list Py.fstring) : QTableWidget :=
  mkTable (rowCount T) (columnCount T) (horizontalHeaderLabels T) l (items T).

Definition setItem (T : QTableWidget) (i j : nat) (c : Py.fstring)
    : QTableWidget :=
  if decide ((i < rowCount T)%nat ∧ (j < columnCount T)%nat)
  then mkTable (rowCount T) (columnCount T) (horizontalHeaderLabels T)
               (verticalHeaderLabels T) (<[(i, j) := c]> (items T))
  else T.

Definition item (T : QTableWidget) (i j : nat) : option Py.fstring :=
  items T !! (i, j).

(** The text of a cell of an input grid, as [float] reads it: a number,
    or text that [float] rejects. *)
Inductive entry : Type := Numeric (q : Q) | Malformed.

(** An input grid: the cells that hold an item. *)
Abbreviation grid := (gmap (nat * nat) entry).

(** [float(t.item(i, j).text())]: raises when the cell holds no item or
    its text is not a number. *)
Definition float_item (t : grid) (i j : nat) : option Q :=
  match t !! (i, j) with
  | Some (Numeric q) => Some q
  | _ => None
  end.

End Qt.

(** ** The application (class TransportApp) *)

Module App.
Import Py Grb Qt.

(** The widgets [solve_transport] reads or writes. *)
Record TransportApp : Type := mkApp {
  spin_usines : nat;
  spin_entrepots : nat;
  table_offres : grid;
  table_demandes : grid;
  table_costs : grid;
  status_label : fstring;
  solution_info : fstring;
  table_results : QTableWidget;
  stats_text : fstring;
  btn_export : bool
}.

(** What leaves the form during a solve: the dialogs shown to the user,
    the event-loop flush and the model handed to the solver. *)
Inductive Event : Type :=
| question (title : string) (text : fstring)
| warning (title : string) (text : fstring)
| critical (title : string) (text : fstring)
| processEvents
| optimize (M : Model).

(** The form and the trace of events so far (oldest first). *)
Definition World : Type := TransportApp * list Event.

(** *** Methods: state and exceptions

    A method body is a function of the world that returns a value or
    raises ([None]); either way the world it has reached stays. *)
Definition UI (A : Type) : Type := World → option A * World.

Definition ret {A} (a : A) : UI A := λ w, (Some a, w).

Definition bind {A B} (c : UI A) (k : A → UI B) : UI B :=
  λ w, match c w with
       | (Some a, w') => k a w'
       | (None, w') => (None, w')
       end.

Notation "x <- c ;; k" := (bind c (λ x, k))
  (at level 100, c at next level, right associativity).
Notation "c ;; k" := (bind c (λ _, k))
  (at level 100, right associativity).

(** A local computation that may raise. *)
Definition lift {A} (o : option A) : UI A := λ w, (o, w).

Definition get : UI TransportApp := λ w, (Some w.1, w).

Definition modify (f : TransportApp → TransportApp) : UI unit :=
  λ w, (Some tt, (f w.1, w.2)).

Definition emit (e : Event) : UI unit :=
  λ w, (Some tt, (w.1, w.2 ++ [e])).

(** [try: body except Exception as e: handler] *)
Definition try_except (body handler : UI unit) : UI unit :=
  λ w, match body w with
       | (Some a, w') => (Some a, w')
       | (None, w') => handler w'
       end.

(** [for b in l: body(b)] *)
Fixpoint for_ {B} (l : list B) (body : B → UI unit) : UI unit :=
  match l with
  | [] => ret tt
  | b :: l' => body b ;; for_ l' body
  end.

(** [for b in l: acc = body(acc, b)], for the local variables a loop
    updates. *)
Fixpoint for_acc {A B} (l : list B) (a : A) (body : A → B → UI A) : UI A :=
  match l with
  | [] => ret a
  | b :: l' => a' <- body a b ;; for_acc l' a' body
  end.

(** *** Widget calls *)

Definition status_label_setText (t : fstring) : UI unit :=
  modify (λ a, mkApp (spin_usines a) (spin_entrepots a) (table_offres a)
                     (table_demandes a) (table_costs a) t (solution_info a)
                     (table_results a) (stats_text a) (btn_export a)).

Definition solution_info_setHtml (t : fstring) : UI unit :=
  modify (λ a, mkApp (spin_usines a) (spin_entrepots a) (table_offres a)
                     (table_demandes a) (table_costs a) (status_label a) t
                     (table_results a) (stats_text a) (btn_export a)).

Definition stats_text_setHtml (t : fstring) : UI unit :=
  modify (λ a, mkApp (spin_usines a) (spin_entrepots a) (table_offres a)
                     (table_demandes a) (table_costs a) (status_label a)
                     (solution_info a) (table_results a) t (btn_export a)).

Definition btn_export_setEnabled (b : bool) : UI unit :=
  modify (λ a, mkApp (spin_usines a) (spin_entrepots a) (table_offres a)
                     (table_demandes a) (table_costs a) (status_label a)
                     (solution_info a) (table_results a) (stats_text a) b).

(** A call on [self.table_results]. *)
Definition on_results (f : QTableWidget → QTableWidget) : UI unit :=
  modify (λ a, mkApp (spin_usines a) (spin_entrepots a) (table_offres a)
                     (table_demandes a) (table_costs a) (status_label a)
                     (solution_info a) (f (table_results a)) (stats_text a)
                     (btn_export a)).

Definition table_results_setItem (i j : nat) (c : fstring) : UI unit :=
  on_results (λ T, setItem T i j c).

(** *** Reading the grids (lines 474-476) *)

(** [[float(t.item(r, j).text()) for j in range(n)]] *)
Definition read_row (t : grid) (r n : nat) : option (list Q) :=
  mapM (λ j, float_item t r j) (range n).

(** [[[float(t.item(i, j).text()) for j in range(n)] for i in range(m)]] *)
Definition read_costs (t : grid) (m n : nat) : option (list (list Q)) :=
  mapM (λ i, read_row t i n) (range m).

(** *** The model builder (lines 496-512) *)

(** [costs[i][j]] *)
Definition at2 (costs : list (list Q)) (i j : nat) : option Q :=
  row ← costs !! i; row !! j.

Definition var_name (i j : nat) : fstring :=
  [Lit "x_"; Dec (Z.of_nat (i + 1)); Lit "_"; Dec (Z.of_nat (j + 1))].

(** Line 502, on the model and the dict [x]. *)
Definition add_var_at (costs : list (list Q)) (i : nat)
    (st : Model * gmap (nat * nat) handle) (j : nat)
    : option (Model * gmap (nat * nat) handle) :=
  c ← at2 costs i j;
  let '(M', v) := addVar st.1 0 c (var_name i j) in
  Some (M', <[(i, j) := v]> st.2).

(** The loop over [j] of lines 501-502. *)
Definition add_vars_row (costs : list (list Q)) (n : nat)
    (st : Model * gmap (nat * nat) handle) (i : nat)
    : option (Model * gmap (nat * nat) handle) :=
  foldlM (add_var_at costs i) st (range n).

(** The two loops that declare the variables and fill the dict [x]. *)
Definition add_vars (costs : list (list Q)) (m n : nat)
    (st : Model * gmap (nat * nat) handle)
    : option (Model * gmap (nat * nat) handle) :=
  foldlM (add_vars_row costs n) st (range m).

(** [sum(x[i, j] for j in range(n))] *)
Definition row_expr (x : gmap (nat * nat) handle) (i n : nat)
    : option LinExpr :=
  vs ← mapM (λ j, x !! (i, j)) (range n); Grb.sum vs.

(** [sum(x[i, j] for i in range(m))] *)
Definition col_expr (x : gmap (nat * nat) handle) (j m : nat)
    : option LinExpr :=
  vs ← mapM (λ i, x !! (i, j)) (range m); Grb.sum vs.

(** Line 508. *)
Definition add_supply_constr (x : gmap (nat * nat) handle)
    (supply : list Q) (n : nat) (M : Model) (i : nat) : option Model :=
  e ← row_expr x i n;
  s ← supply !! i;
  Some (addConstr M e LESS_EQUAL s [Lit "supply_"; Dec (Z.of_nat i)]).

Definition add_supply_constrs (x : gmap (nat * nat) handle)
    (supply : list Q) (m n : nat) (M : Model) : option Model :=
  foldlM (add_supply_constr x supply n) M (range m).

(** Line 512. *)
Definition add_demand_constr (x : gmap (nat * nat) handle)
    (demand : list Q) (m : nat) (M : Model) (j : nat) : option Model :=
  e ← col_expr x j m;
  d ← demand !! j;
  Some (addConstr M e GREATER_EQUAL d [Lit "demand_"; Dec (Z.of_nat j)]).

Definition add_demand_constrs (x : gmap (nat * nat) handle)
    (demand : list Q) (m n : nat) (M : Model) : option Model :=
  foldlM (add_demand_constr x demand m) M (range n).

Definition build_model (supply demand : list Q) (costs : list (list Q))
    (m n : nat) : option (Model * gmap (nat * nat) handle) :=
  let model := Grb.new "transport" in
  let model := setOutputFlag model 0 in
  '(model, x) ← add_vars costs m n (model, ∅);
  let model := setModelSense model MINIMIZE in
  model ← add_supply_constrs x supply m n model;
  model ← add_demand_constrs x demand m n model;
  Some (model, x).

(** *** The result formatter (lines 517-608)

    Of the two HTML reports only the text and the interpolated values
    are kept, not the markup. *)

Definition info_text (m n : nat) (o : Outcome) : fstring :=
  [Lit "✓ SOLUTION OPTIMALE TROUVÉE ! Coût total minimal:"; F2 (objVal o);
   Lit "Nombre de variables:"; Dec (Z.of_nat (m * n));
   Lit "Nombre de contraintes:"; Dec (Z.of_nat (m + n));
   Lit "Temps de résolution:"; F2 (Runtime o); Lit "s";
   Lit "Gap d'optimalité:"; Pct2 (default 0 (MIPGap o))].

Definition headers (n : nat) : list fstring :=
  map (λ j, [Lit "E"; Dec (Z.of_nat (j + 1))]) (range n)
  ++ [[Lit "Offre"]; [Lit "Coût usine"]].

Definition vertical_headers (m : nat) : list fstring :=
  map (λ i, [Lit "U"; Dec (Z.of_nat (i + 1))]) (range m)
  ++ [[Lit "Demande"]; [Lit "Coût total"]].

(** The body of the inner loop of lines 546-560; the accumulator is
    [(row_cost, row_flow)]. *)
Definition fill_cell (costs : list (list Q)) (x : gmap (nat * nat) handle)
    (o : Outcome) (i : nat) (acc : Q * Q) (j : nat) : UI (Q * Q) :=
  h <- lift (x !! (i, j)) ;;
  let val := X o h in
  c <- lift (at2 costs i j) ;;
  let cost := c * val in
  let row_cost := acc.1 + cost in
  let row_flow := acc.2 + val in
  table_results_setItem i j [F2 val] ;;
  ret (row_cost, row_flow).

(** Lines 543-574: one row per source. *)
Definition fill_row (costs : list (list Q)) (x : gmap (nat * nat) handle)
    (o : Outcome) (n : nat) (i : nat) : UI unit :=
  acc <- for_acc (range n) (0, 0) (fill_cell costs x o i) ;;
  table_results_setItem i n [F2 acc.2] ;;
  table_results_setItem i (n + 1) [F2 acc.1].

(** Lines 577-583: the column totals. *)
Definition fill_demand (x : gmap (nat * nat) handle) (o : Outcome)
    (m : nat) (j : nat) : UI unit :=
  hs <- lift (mapM (λ i, x !! (i, j)) (range m)) ;;
  let col_flow := Py.sum (map (X o) hs) in
  table_results_setItem m j [F2 col_flow].

(** Lines 590-598: the last row. *)
Definition fill_total (m n : nat) (total_cost : Q) (j : nat) : UI unit :=
  let item := if decide (j = (n + 1)%nat) then [F2 total_cost] else [] in
  table_results_setItem (m + 1) j item.

Definition stats_html (M : Model) (o : Outcome) (m n : nat) (total_cost : Q)
    : fstring :=
  [Lit "STATISTIQUES DU PROBLÈME";
   Lit "Nombre d'usines (sources): "; Dec (Z.of_nat m);
   Lit "Nombre d'entrepôts (destinations): "; Dec (Z.of_nat n);
   Lit "Total des variables: "; Dec (Z.of_nat (m * n));
   Lit "Coût optimal: "; F2 total_cost;
   Lit "Temps de calcul: "; F3 (Runtime o); Lit " secondes";
   Lit "Nombre d'itérations: ";
   match IterCount o with Some k => Repr k | None => Lit "N/A" end;
   Lit "Status: "; Dec (status o);
   Lit "Solveur: Gurobi Optimizer"; Lit "Méthode: Simplexe";
   Lit "Variables: "; Dec (Z.of_nat (length (vars M)));
   Lit "Contraintes: "; Dec (Z.of_nat (length (constrs M)))].

Definition update_stats (M : Model) (o : Outcome) (m n : nat)
    (total_cost : Q) : UI unit :=
  stats_text_setHtml (stats_html M o m n total_cost).

(** The branch taken on [model.status == GRB.OPTIMAL]. *)
Definition show_solution (costs : list (list Q))
    (x : gmap (nat * nat) handle) (M : Model) (o : Outcome) (m n : nat)
    : UI unit :=
  let total_cost := objVal o in
  solution_info_setHtml (info_text m n o) ;;
  on_results (λ T, setRowCount T (m + 2)) ;;
  on_results (λ T, setColumnCount T (n + 2)) ;;
  on_results (λ T, setHorizontalHeaderLabels T (headers n)) ;;
  on_results (λ T, setVerticalHeaderLabels T (vertical_headers m)) ;;
  for_ (range m) (fill_row costs x o n) ;;
  for_ (range n) (fill_demand x o m) ;;
  table_results_setItem m n [] ;;
  table_results_setItem m (n + 1) [] ;;
  for_ (range (n + 2)) (fill_total m n total_cost) ;;
  update_stats M o m n total_cost ;;
  btn_export_setEnabled true ;;
  status_label_setText
    [Lit "✓ Solution optimale trouvée - Coût total: "; F2 total_cost].

(** *** solve_transport (lines 468-619) *)

Definition unbalanced_text (total_supply total_demand : Q) : fstring :=
  [Lit "Offre totale ("; Repr total_supply; Lit ") ≠ Demande totale (";
   Repr total_demand;
   Lit ").
Voulez-vous continuer? (Un point fictif sera ajouté)"].

Definition no_solution_text (st : Z) : fstring :=
  [Lit "Statut: "; Dec st; Lit "
Aucune solution optimale trouvée."].

(** [QMessageBox.question(...)]: the dialog is shown and the user's
    answer comes back. *)
Definition ask (reply : StandardButton) (title : string) (text : fstring)
    : UI StandardButton :=
  emit (question title text) ;; ret reply.

(** [model.optimize()]: the model goes to the solver and its outcome
    comes back. *)
Definition run_optimize (solver : Model → Outcome) (M : Model) : UI Outcome :=
  emit (optimize M) ;; ret (solver M).

(** The body of the [try].  The balance test of line 482 is taken on the
    exact totals and against the rational 1/1000; the program takes it
    on the float totals and against the float nearest to 0.001.  The two
    tests agree whenever the totals are computed without rounding and
    their difference is not within a rounding of 0.001, as for whole
    numbers below 2^53. *)
Definition solve_body (reply : StandardButton) (solver : Model → Outcome)
    : UI unit :=
  self <- get ;;
  let m := spin_usines self in
  let n := spin_entrepots self in
  supply <- lift (read_row (table_offres self) 0 m) ;;
  demand <- lift (read_row (table_demandes self) 0 n) ;;
  costs <- lift (read_costs (table_costs self) m n) ;;
  let total_supply := Py.sum supply in
  let total_demand := Py.sum demand in
  declined <-
    (if Qlt_le_dec (1 # 1000) (Qabs (total_supply - total_demand)) then
       r <- ask reply "Problème déséquilibré"
                (unbalanced_text total_supply total_demand) ;;
       ret (bool_decide (r = No))
     else ret false) ;;
  if declined : bool then ret tt else
  status_label_setText [Lit "Résolution en cours..."] ;;
  emit processEvents ;;
  built <- lift (build_model supply demand costs m n) ;;
  let model := built.1 in
  let x := built.2 in
  o <- run_optimize solver model ;;
  if decide (status o = OPTIMAL) then
    show_solution costs x model o m n
  else
    emit (warning "Aucune solution" (no_solution_text (status o))) ;;
    status_label_setText [Lit "✗ Aucune solution optimale trouvée"].

Definition on_error : UI unit :=
  emit (critical "Erreur de résolution"
          [Lit "Une erreur est survenue:
"; StrExc]) ;;
  status_label_setText [Lit "✗ Erreur lors de la résolution"].

Definition solve_transport (reply : StandardButton)
    (solver : Model → Outcome) : UI unit :=
  try_except (solve_body reply solver) on_error.

(** One click on the solve button: the form afterwards and what was
    shown or sent meanwhile. *)
Definition click_solve (self : TransportApp) (reply : StandardButton)
    (solver : Model → Outcome) : TransportApp * list Event :=
  (solve_transport reply solver (self, [])).2.

End App.

(** ** The vocabulary of the specification *)

Module Spec.
Import Py Grb Qt App.

(** The sum of a list of numbers, as mathematics writes it. *)
Definition total (l : list Q) : Q := fold_right Qplus 0 l.

(** [Σ_{k < n} f k] *)
Definition sum_upto (n : nat) (f : nat → Q) : Q := total (map f (range n)).

(** A supply vector of length [m], a demand vector of length [n] and an
    [m]-by-[n] cost matrix. *)
Definition shaped (supply demand : list Q) (costs : list (list Q))
    (m n : nat) : Prop :=
  length supply = m ∧ length demand = n ∧ length costs = m ∧
  Forall (λ row, length row = n) costs.

(** [l[i]] where it exists. *)
Definition nthQ (l : list Q) (i : nat) : Q := default 0 (l !! i).

(** [costs[i][j]] where it exists. *)
Definition cost_of (costs : list (list Q)) (i j : nat) : Q :=
  default 0 (at2 costs i j).

(** The column of [x[i, j]]: variables are declared row by row. *)
Definition idx (n i j : nat) : handle := (i * n + j)%nat.

(** The transportation program of section 4.1, written down directly:
    one variable per pair with lower bound 0 and the unit cost as
    objective coefficient, minimisation, one capacity row per source
    and one coverage row per destination. *)
Definition var_of (costs : list (list Q)) (i j : nat) : Var :=
  mkVar 0 (cost_of costs i j) (var_name i j).

Definition vars_of (costs : list (list Q)) (m n : nat) : list Var :=
  flat_map (λ i, map (var_of costs i) (range n)) (range m).

Definition capacity (supply : list Q) (n i : nat) : Constr :=
  mkConstr (mkLin 0 (map (λ j, (1, idx n i j)) (range n))) LESS_EQUAL
           (nthQ supply i) [Lit "supply_"; Dec (Z.of_nat i)].

Definition coverage (demand : list Q) (m n j : nat) : Constr :=
  mkConstr (mkLin 0 (map (λ i, (1, idx n i j)) (range m))) GREATER_EQUAL
           (nthQ demand j) [Lit "demand_"; Dec (Z.of_nat j)].

Definition transport_lp (supply demand : list Q) (costs : list (list Q))
    (m n : nat) : Model :=
  mkModel "transport" 0 MINIMIZE (vars_of costs m n)
          (map (capacity supply n) (range m)
           ++ map (coverage demand m n) (range n)).

(** A flow (one number per pair) meets the constraints of section 4.1. *)
Definition admissible (supply demand : list Q) (m n : nat)
    (flow : nat → nat → Q) : Prop :=
  (∀ i j, (i < m)%nat → (j < n)%nat → 0 <= flow i j) ∧
  (∀ i, (i < m)%nat → sum_upto n (λ j, flow i j) <= nthQ supply i) ∧
  (∀ j, (j < n)%nat → nthQ demand j <= sum_upto m (λ i, flow i j)).

(** The flow a valuation of the columns stands for. *)
Definition flow_of (n : nat) (ρ : valuation) : nat → nat → Q :=
  λ i j, ρ (idx n i j).

(** The valuation of the columns that stands for a flow. *)
Definition valuation_of (n : nat) (flow : nat → nat → Q) : valuation :=
  λ h, flow (h / n)%nat (h mod n)%nat.

(** Every source serves every destination in proportion to its share
    of the total supply. *)
Definition share (supply demand : list Q) (m : nat) : nat → nat → Q :=
  λ i j, nthQ supply i * nthQ demand j / sum_upto m (nthQ supply).

(** The cost of a flow: [Σ_i Σ_j cost[i][j] * flow[i][j]]. *)
Definition flow_cost (costs : list (list Q)) (m n : nat)
    (flow : nat → nat → Q) : Q :=
  sum_upto m (λ i, sum_upto n (λ j, cost_of costs i j * flow i j)).

(** The balance test of line 482. *)
Definition unbalanced (supply demand : list Q) : Prop :=
  (1 # 1000) < Qabs (Py.sum supply - Py.sum demand).

(** The total of a row of whole numbers.  Python's floats hold the whole
    numbers below 2^53 and add them without rounding, so on whole
    entries that are not negative and have such a total the [sum] of
    lines 478-479 is this number. *)
Definition whole_total (zs : list Z) : Z := fold_left Z.add zs 0%Z.

(** The dict [x] after the two loops: [x[i, j]] for every pair. *)
Definition x_complete (x : gmap (nat * nat) handle) (m n : nat) : Prop :=
  ∀ i j, x !! (i, j) =
         if decide ((i < m)%nat ∧ (j < n)%nat) then Some (idx n i j)
         else None.

(** The total right-hand side of the rows of one sense: the capacity a
    model offers and the demand it must cover. *)
Definition rhs_total (s : Sense) (M : Model) : Q :=
  total (map rhs (filter (λ c, sense c = s) (constrs M))).

(** The number a cell of the results table shows. *)
Definition shown_at (T : QTableWidget) (i j : nat) : option Q :=
  item T i j ≫= shown.

(** The three grids of the form hold these numbers. *)
Definition reads (self : TransportApp) (supply demand : list Q)
    (costs : list (list Q)) : Prop :=
  read_row (table_offres self) 0 (spin_usines self) = Some supply ∧
  read_row (table_demandes self) 0 (spin_entrepots self) = Some demand ∧
  read_costs (table_costs self) (spin_usines self) (spin_entrepots self)
  = Some costs.

(** The confirmation dialog of lines 483-488. *)
Definition confirmation (supply demand : list Q) : Event :=
  question "Problème déséquilibré"
           (unbalanced_text (Py.sum supply) (Py.sum demand)).

(** What the balance test shows before the solve goes on: the dialog
    when the totals differ by more than the tolerance, nothing
    otherwise. *)
Definition asked (supply demand : list Q) : list Event :=
  if Qlt_le_dec (1 # 1000) (Qabs (Py.sum supply - Py.sum demand))
  then [confirmation supply demand] else [].

(** *** The table the formatter fills

    The loops of lines 543-598 as functions on the results table. *)

(** The value of [x[i, j].x]. *)
Definition flow_at (o : Outcome) (n i j : nat) : Q := X o (idx n i j).

(** [row_flow] and [row_cost] when the inner loop ends (lines 544-550),
    and [col_flow] (line 578). *)
Definition row_flow (o : Outcome) (n i : nat) : Q :=
  fold_left (λ acc j, acc + flow_at o n i j) (range n) 0.

Definition row_cost (costs : list (list Q)) (o : Outcome) (n i : nat) : Q :=
  fold_left (λ acc j, acc + cost_of costs i j * flow_at o n i j) (range n) 0.

Definition col_flow (o : Outcome) (m n j : nat) : Q :=
  Py.sum (map (λ i, flow_at o n i j) (range m)).

(** [for j in range(n): T.setItem(i, j, v(j))] *)
Definition cells (i : nat) (v : nat → fstring) (n : nat)
    (T : QTableWidget) : QTableWidget :=
  fold_left (λ T j, setItem T i j (v j)) (range n) T.

Definition filled_row (costs : list (list Q)) (o : Outcome) (n : nat)
    (T : QTableWidget) (i : nat) : QTableWidget :=
  let T := cells i (λ j, [F2 (flow_at o n i j)]) n T in
  let T := setItem T i n [F2 (row_flow o n i)] in
  setItem T i (n + 1) [F2 (row_cost costs o n i)].

Definition last_row (n : nat) (total_cost : Q) (j : nat) : fstring :=
  if decide (j = (n + 1)%nat) then [F2 total_cost] else [].

Definition filled (costs : list (list Q)) (o : Outcome) (m n : nat)
    (T : QTableWidget) : QTableWidget :=
  let T := setRowCount T (m + 2) in
  let T := setColumnCount T (n + 2) in
  let T := setHorizontalHeaderLabels T (headers n) in
  let T := setVerticalHeaderLabels T (vertical_headers m) in
  let T := fold_left (filled_row costs o n) (range m) T in
  let T := cells m (λ j, [F2 (col_flow o m n j)]) n T in
  let T := setItem T m n [] in
  let T := setItem T m (n + 1) [] in
  cells (m + 1) (last_row n (objVal o)) (n + 2) T.

(** The cell of the filled table at row [i], column [j]: the flows with
    the two row aggregates, then the column totals, then the total
    cost in the last cell; nothing outside [m + 2] rows and [n + 2]
    columns. *)
Definition cell_of (costs : list (list Q)) (o : Outcome) (m n i j : nat)
    : option fstring :=
  if decide (n + 1 < j)%nat then None
  else if decide (i < m)%nat then
    Some (if decide (j < n)%nat then [F2 (flow_at o n i j)]
          else if decide (j = n) then [F2 (row_flow o n i)]
          else [F2 (row_cost costs o n i)])
  else if decide (i = m) then
    Some (if decide (j < n)%nat then [F2 (col_flow o m n j)] else [])
  else if decide (i = (m + 1)%nat) then Some (last_row n (objVal o) j)
  else None.

(** The form after the branch of line 516. *)
Definition solved (self : TransportApp) (costs : list (list Q)) (M : Model)
    (o : Outcome) : TransportApp :=
  let m := spin_usines self in
  let n := spin_entrepots self in
  mkApp m n (table_offres self) (table_demandes self) (table_costs self)
        [Lit "✓ Solution optimale trouvée - Coût total: "; F2 (objVal o)]
        (info_text m n o)
        (filled costs o m n (table_results self))
        (stats_html M o m n (objVal o))
        true.

(** The form with another results table. *)
Definition with_results (self : TransportApp) (T : QTableWidget)
    : TransportApp :=
  mkApp (spin_usines self) (spin_entrepots self) (table_offres self)
        (table_demandes self) (table_costs self) (status_label self)
        (solution_info self) T (stats_text self) (btn_export self).

(** The form with another status line. *)
Definition with_status (self : TransportApp) (t : fstring) : TransportApp :=
  mkApp (spin_usines self) (spin_entrepots self) (table_offres self)
        (table_demandes self) (table_costs self) t (solution_info self)
        (table_results self) (stats_text self) (btn_export self).

End Spec.

(** ** Sample forms and solver answers *)

Module Sample.
Import Py Grb Qt App Spec.

(** The results table of a form that has not solved anything yet. *)
Definition no_results : QTableWidget := mkTable 0 0 [] [] ∅.

(** The unit costs the form proposes for two sources and two
    destinations (line 439). *)
Definition costs22 : list (list Q) := [[11; 12]; [21; 22]].

Definition costs22_grid : grid :=
  list_to_map [((0, 0), Numeric 11); ((0, 1), Numeric 12);
               ((1, 0), Numeric 21); ((1, 1), Numeric 22)]%nat.

Definition row_grid (a b : Q) : grid :=
  list_to_map [((0, 0), Numeric a); ((0, 1), Numeric b)]%nat.

Definition created22 : fstring :=
  [Lit "Tableaux créés: "; Dec 2; Lit " usines × "; Dec 2;
   Lit " entrepôts - Prêt à saisir les données"].

(** Two sources offering 300 in all, two destinations asking for 250. *)
Definition surplus_form : TransportApp :=
  mkApp 2 2 (row_grid 150 150) (row_grid 100 150) costs22_grid
        created22 [] no_results [] false.

(** Two sources offering 300, two destinations asking for 300. *)
Definition balanced_form : TransportApp :=
  mkApp 2 2 (row_grid 150 150) (row_grid 100 200) costs22_grid
        created22 [] no_results [] false.

(** One source, one destination, 5 units, at the given unit cost. *)
Definition cell_grid (a : Q) : grid := {[ (0, 0)%nat := Numeric a ]}.

Definition single_form (c : Q) : TransportApp :=
  mkApp 1 1 (cell_grid 5) (cell_grid 5) (cell_grid c)
        [Lit "Prêt"] [] no_results [] false.

(** A solver that finds every model infeasible. *)
Definition refusing (M : Model) : Outcome :=
  mkOutcome INFEASIBLE (λ _, 0) 0 0 None None.

(** A solver that ships 5 units in every column at the given total. *)
Definition shipping (total_cost : Q) (M : Model) : Outcome :=
  mkOutcome OPTIMAL (λ _, 5) total_cost 0 None None.

(** Two sources offering 300 in all, two destinations asking for 350: no
    flow covers the demand. *)
Definition deficit_form : TransportApp :=
  mkApp 2 2 (row_grid 150 150) (row_grid 200 150) costs22_grid
        created22 [] no_results [] false.

(** One source, one destination, 1 unit at the unit cost 0.125, and the
    answer of a solver to it: the unit is shipped, at 0.125. *)
Definition eighth_form : TransportApp :=
  mkApp 1 1 (cell_grid 1) (cell_grid 1) (cell_grid (1 # 8))
        [Lit "Prêt"] [] no_results [] false.

Definition eighth_answer (M : Model) : Outcome :=
  mkOutcome OPTIMAL (λ _, 1) (1 # 8) 0 None None.



End Sample.

(** ** The window: the other methods of TransportApp

    The form of [solve_transport] together with the solve button, and
    the three other slots the buttons are wired to (lines 169-183).  The
    layout of the left panel (group boxes, hint label, scroll areas) is
    rendering and is not modelled.  An input grid that does not exist
    yet, or whose widget a reset has deleted, is the grid without any
    item: reading it raises, as reading a missing item does. *)

Module Win.
Import Py Grb Qt App Spec.

Record Window : Type := mkWindow { form : TransportApp; btn_solve : bool }.

(** [QSpinBox.setValue(v)] with [setMinimum(1)] and [setMaximum(10)]
    (lines 139-140 and 152-153): the value is kept within the range. *)
Definition spin_setValue (v : nat) : nat := Nat.max 1 (Nat.min 10 v).

(** The window when [initUI] returns (lines 112-319): both counts at 3,
    solve and export disabled, an empty results table, status [Prêt]. *)
Definition initUI : Window :=
  mkWindow (mkApp (spin_setValue 3) (spin_setValue 3) ∅ ∅ ∅ [Lit "Prêt"] []
                  (mkTable 0 0 [] [] ∅) [] false)
           false.

(** *** create_tables (lines 321-466) *)

(** [QTableWidget(1, n)] filled by [for j in range(n): setItem(0, j, ...)]
    (lines 348-360 and 376-387). *)
Definition new_row_grid (n : nat) (text : nat → entry) : grid :=
  fold_left (λ g j, <[(0%nat, j) := text j]> g) (range n) ∅.

(** [default_cost = (i + 1) * 10 + (j + 1)] (line 439), as [float] reads
    the text [str(default_cost)]. *)
Definition default_cost (i j : nat) : Q :=
  inject_Z (Z.of_nat ((i + 1) * 10 + (j + 1))).

(** [QTableWidget(m, n)] filled by the two loops of lines 437-452. *)
Definition new_cost_grid (m n : nat) : grid :=
  fold_left (λ g i,
    fold_left (λ g j, <[(i, j) := Numeric (default_cost i j)]> g) (range n) g)
    (range m) ∅.

Definition created_text (m n : nat) : fstring :=
  [Lit "Tableaux créés: "; Dec (Z.of_nat m); Lit " usines × ";
   Dec (Z.of_nat n); Lit " entrepôts - Prêt à saisir les données"].

(** Nothing in the body of the [try] raises on these widgets, so the
    handler of line 465 is left out. *)
Definition create_tables (w : Window) : Window :=
  let a := form w in
  let m := spin_usines a in
  let n := spin_entrepots a in
  mkWindow
    (mkApp m n
           (new_row_grid m (λ _, Numeric 100))
           (new_row_grid n (λ _, Numeric 100))
           (new_cost_grid m n)
           (created_text m n)
           (solution_info a) (table_results a) (stats_text a) (btn_export a))
    true.

(** *** What the window shows or writes *)

(** A cell of the exported file: text, or the first 100 characters of
    the plain text of an HTML report ([toPlainText()[:100]]). *)
Inductive csv_cell : Type :=
| Text (t : fstring)
| PlainText100 (html : fstring).

Inductive Output : Type :=
| shown (e : Event)
| information (title : string) (text : fstring)
| opened (filename : string)
| writerow (cells : list csv_cell).

(** *** reset_all (lines 694-729) *)

(** [QTableWidget.clear()]: the items and the header items go, the
    dimensions stay. *)
Definition clear (T : QTableWidget) : QTableWidget :=
  mkTable (rowCount T) (columnCount T) [] [] ∅.

Definition reset_question : Output :=
  shown (question "Réinitialiser"
                  [Lit "Voulez-vous vraiment tout réinitialiser?"]).

Definition reset_all (reply : StandardButton) (w : Window)
    : Window * list Output :=
  if decide (reply = Yes) then
    (mkWindow
       (mkApp (spin_setValue 3) (spin_setValue 3) ∅ ∅ ∅
              [Lit "Prêt - Application réinitialisée"]
              []
              (setColumnCount (setRowCount (clear (table_results (form w))) 0) 0)
              []
              false)
       false,
     [reset_question])
  else (w, [reset_question]).

(** *** export_csv (lines 652-692)

    [filename] is what the file dialog returns (empty when cancelled),
    [now] the formatted current time, and [writable] whether [open]
    succeeds; a failure while writing is not modelled. *)

Definition export_error : Output :=
  shown (critical "Erreur d'export" [Lit "Erreur lors de l'export:
"; StrExc]).

(** [[T.horizontalHeaderItem(j).text() for j in range(n_cols)]]: raises
    on a column without header item. *)
Definition header_row (T : QTableWidget) : option (list csv_cell) :=
  mapM (λ j, Text <$> horizontalHeaderLabels T !! j) (range (columnCount T)).

(** The row of line 673-678: the text of each item, empty where there
    is none. *)
Definition data_row (T : QTableWidget) (i : nat) : list csv_cell :=
  map (λ j, Text (default [] (item T i j))) (range (columnCount T)).

Definition preamble (filename now : string) : list Output :=
  [opened filename;
   writerow [Text [Lit "Solution du Problème de Transport"]];
   writerow [Text [Lit "Généré le: "; Lit now]];
   writerow []].

Definition export_csv (filename now : string) (writable : bool) (w : Window)
    : Window * list Output :=
  if decide (filename = EmptyString) then (w, [])
  else if negb writable then (w, [export_error])
  else
    let T := table_results (form w) in
    match header_row T with
    | None => (w, preamble filename now ++ [export_error])
    | Some hdr =>
        (mkWindow (with_status (form w) [Lit "✓ Fichier exporté: "; Lit filename])
                  (btn_solve w),
         preamble filename now
         ++ [writerow hdr]
         ++ map (λ i, writerow (data_row T i)) (range (rowCount T))
         ++ [writerow [];
             writerow [Text [Lit "Informations supplémentaires:"]];
             writerow [PlainText100 (solution_info (form w))];
             information "Export réussi"
               [Lit "Les résultats ont été exportés avec succès dans:
"; Lit filename]])
    end.

(** *** The user at the window *)

(** Typing in a cell of an input grid changes the text of its item. *)
Definition retype (g : grid) (i j : nat) (e : entry) : grid :=
  match g !! (i, j) with
  | Some _ => <[(i, j) := e]> g
  | None => g
  end.

Inductive Action : Type :=
| set_usines (v : nat)
| set_entrepots (v : nat)
| type_offre (j : nat) (e : entry)
| type_demande (j : nat) (e : entry)
| type_cost (i j : nat) (e : entry)
| type_result (i j : nat) (text : string)
| press_create
| press_solve (reply : StandardButton) (solver : Model → Outcome)
| press_export (filename now : string) (writable : bool)
| press_reset (reply : StandardButton).

(** The form with other counts or grids. *)
Definition with_inputs (a : TransportApp) (m n : nat) (o d c : grid)
    : TransportApp :=
  mkApp m n o d c (status_label a) (solution_info a) (table_results a)
        (stats_text a) (btn_export a).

(** One action of the user.  A disabled button does nothing (lines 174,
    179, 462, 607, 708-709). *)
Definition step (w : Window) (act : Action) : Window * list Output :=
  let a := form w in
  let same_inputs m n o d c := (mkWindow (with_inputs a m n o d c) (btn_solve w), []) in
  match act with
  | set_usines v =>
      same_inputs (spin_setValue v) (spin_entrepots a) (table_offres a)
                  (table_demandes a) (table_costs a)
  | set_entrepots v =>
      same_inputs (spin_usines a) (spin_setValue v) (table_offres a)
                  (table_demandes a) (table_costs a)
  | type_offre j e =>
      same_inputs (spin_usines a) (spin_entrepots a)
                  (retype (table_offres a) 0 j e) (table_demandes a)
                  (table_costs a)
  | type_demande j e =>
      same_inputs (spin_usines a) (spin_entrepots a) (table_offres a)
                  (retype (table_demandes a) 0 j e) (table_costs a)
  | type_cost i j e =>
      same_inputs (spin_usines a) (spin_entrepots a) (table_offres a)
                  (table_demandes a) (retype (table_costs a) i j e)
  | type_result i j text =>
      (mkWindow (with_results a (setItem (table_results a) i j [Lit text]))
                (btn_solve w), [])
  | press_create => (create_tables w, [])
  | press_solve reply solver =>
      if btn_solve w then
        let r := click_solve a reply solver in
        (mkWindow r.1 (btn_solve w), map shown r.2)
      else (w, [])
  | press_export filename now writable =>
      if btn_export a then export_csv filename now writable w else (w, [])
  | press_reset reply => reset_all reply w
  end.

(** A session: the window after a sequence of actions. *)
Definition run (acts : list Action) (w : Window) : Window :=
  fold_left (λ w act, (step w act).1) acts w.

(** *** Vocabulary *)

(** Every header item and every item of the table exists, and nothing
    lies outside its rows and columns. *)
Definition complete (T : QTableWidget) : Prop :=
  (∀ j, (j < columnCount T)%nat → is_Some (horizontalHeaderLabels T !! j)) ∧
  (∀ i j, is_Some (item T i j)
          ↔ (i < rowCount T)%nat ∧ (j < columnCount T)%nat).

(** What holds of the window throughout a session: both counts are
    within the range of their spin box, and while the export button is
    enabled the results table is complete. *)
Definition sane (w : Window) : Prop :=
  (1 ≤ spin_usines (form w) ≤ 10)%nat
  ∧ (1 ≤ spin_entrepots (form w) ≤ 10)%nat
  ∧ (btn_export (form w) = true → complete (table_results (form w))).

(** The last rows of the exported file and the dialog that follows. *)
Definition closing (filename : string) (info : fstring) : list Output :=
  [writerow [];
   writerow [Text [Lit "Informations supplémentaires:"]];
   writerow [PlainText100 info];
   information "Export réussi"
     [Lit "Les résultats ont été exportés avec succès dans:
"; Lit filename]].

(** The dimensions and headers of a table. *)
Definition frame (T : QTableWidget)
    : nat * nat * list fstring * list fstring :=
  (rowCount T, columnCount T, horizontalHeaderLabels T,
   verticalHeaderLabels T).

(** The counts and grids of a form. *)
Definition inputs (a : TransportApp) : nat * nat * grid * grid * grid :=
  (spin_usines a, spin_entrepots a, table_offres a, table_demandes a,
   table_costs a).

(** A method body that leaves the counts and grids as they are,
    whether it returns or raises. *)
Definition keeps_inputs {A} (c : UI A) : Prop :=
  ∀ w, inputs (c w).2.1 = inputs w.1.

(** The unit costs the generated grid proposes. *)
Definition default_costs (m n : nat) : list (list Q) :=
  map (λ i, map (default_cost i) (range n)) (range m).

(** A session: one source and one destination, the generated tables
    solved as they stand, the solver shipping at a total of 1100. *)
Definition short_session : list Action :=
  [set_usines 1; set_entrepots 1; press_create;
   press_solve Yes (Sample.shipping 1100)].

(** A form with a cell that is not a number. *)
Definition typo_form : TransportApp :=
  mkApp 1 1 {[ (0, 0)%nat := Malformed ]} {[ (0, 0)%nat := Numeric 5 ]}
        {[ (0, 0)%nat := Numeric 3 ]} [Lit "Prêt"] [] (mkTable 0 0 [] [] ∅) []
        false.

End Win.

Import Py Grb Qt App Spec.

(** ** Two decimals *)

Lemma round_half_even_comp (p q : Q) :
  p == q → round_half_even p = round_half_even q.
Proof.
  intros H. unfold round_half_even.
  rewrite (Qfloor_comp _ _ H).
  assert (p - inject_Z (Qfloor q) == q - inject_Z (Qfloor q)) as H'
    by (rewrite H; reflexivity).
  by rewrite H'.
Qed.

Lemma round_half_even_near (q : Q) :
  Qabs (inject_Z (round_half_even q) - q) <= 1 # 2.
Proof.
  pose proof (Qfloor_le q) as Hlo. pose proof (Qlt_floor q) as Hhi.
  rewrite inject_Z_plus in Hhi. change (inject_Z 1) with 1 in Hhi.
  apply Qabs_Qle_condition. unfold round_half_even.
  destruct (Qcompare_spec (q - inject_Z (Qfloor q)) (1 # 2)) as [He|Hl|Hg].
  - destruct (Z.even (Qfloor q)).
    + split; lra.
    + rewrite inject_Z_plus. change (inject_Z 1) with 1. split; lra.
  - split; lra.
  - rewrite inject_Z_plus. change (inject_Z 1) with 1. split; lra.
Qed.

(** Equal numbers are written alike. *)
Lemma fixed2_comp (p q : Q) : p == q → fixed2 p = fixed2 q.
Proof.
  intros H. unfold fixed2. f_equal. apply round_half_even_comp.
  by rewrite H.
Qed.

(** What is written is within half a hundredth of the number. *)
Lemma fixed2_near (q : Q) : Qabs (fixed2 q - q) <= 1 # 200.
Proof.
  pose proof (round_half_even_near (q * 100)) as H.
  apply Qabs_Qle_condition in H. apply Qabs_Qle_condition.
  assert (fixed2 q == inject_Z (round_half_even (q * 100)) / 100) as ->.
  { unfold fixed2. rewrite (Qmake_Qdiv _ 100). reflexivity. }
  set (z := inject_Z _) in *.
  assert (z / 100 == z * (1 # 100)) as -> by field.
  split; lra.
Qed.

Lemma fixed2_zero (q : Q) : q == 0 → fixed2 q == 0.
Proof. intros H. rewrite (fixed2_comp _ _ H). reflexivity. Qed.

(** A number of at most two decimals is written as it is. *)
Lemma fixed2_hundredths (q : Q) (z : Z) : q == z # 100 → fixed2 q == q.
Proof.
  intros H. rewrite H at 2. unfold fixed2.
  assert (q * 100 == inject_Z z) as Hz.
  { rewrite H, (Qmake_Qdiv z 100). field. }
  rewrite (round_half_even_comp _ _ Hz). unfold round_half_even.
  rewrite Qfloor_Z.
  destruct (Qcompare_spec (inject_Z z - inject_Z z) (1 # 2)) as [He|Hl|Hg].
  - lra.
  - reflexivity.
  - lra.
Qed.

(** ** Sums *)

Lemma fold_left_Qplus (l : list Q) (a : Q) :
  fold_left Qplus l a == a + total l.
Proof.
  revert a. induction l as [|b l IH]; intros a; simpl.
  - lra.
  - rewrite IH. unfold total. simpl. lra.
Qed.

Lemma sum_total (l : list Q) : Py.sum l == total l.
Proof. unfold Py.sum. rewrite fold_left_Qplus. lra. Qed.

Lemma total_app (l1 l2 : list Q) : total (l1 ++ l2) == total l1 + total l2.
Proof.
  induction l1 as [|a l1 IH]; simpl.
  - lra.
  - unfold total in *. simpl. rewrite IH. lra.
Qed.

Lemma range_S (n : nat) : range (S n) = range n ++ [n].
Proof. unfold range. by rewrite seq_S. Qed.

Lemma sum_upto_S (n : nat) (f : nat → Q) :
  sum_upto (S n) f == sum_upto n f + f n.
Proof.
  unfold sum_upto. rewrite range_S, map_app, total_app. simpl.
  unfold total. simpl. lra.
Qed.

Lemma sum_upto_0 (f : nat → Q) : sum_upto 0 f == 0.
Proof. reflexivity. Qed.

Lemma sum_upto_ext (n : nat) (f g : nat → Q) :
  (∀ k, (k < n)%nat → f k == g k) → sum_upto n f == sum_upto n g.
Proof.
  induction n as [|n IH]; intros H; [reflexivity|].
  rewrite !sum_upto_S, IH, (H n) by (intros; auto with lia). reflexivity.
Qed.

Lemma sum_upto_nonneg (n : nat) (f : nat → Q) :
  (∀ k, (k < n)%nat → 0 <= f k) → 0 <= sum_upto n f.
Proof.
  intros H. induction n as [|n IH]; [apply Qle_refl|].
  rewrite sum_upto_S.
  assert (0 <= f n) by (apply H; lia).
  assert (0 <= sum_upto n f) by (apply IH; intros; apply H; lia).
  lra.
Qed.

Lemma sum_upto_zero (n : nat) (f : nat → Q) :
  (∀ k, (k < n)%nat → f k == 0) → sum_upto n f == 0.
Proof.
  intros H. induction n as [|n IH]; [reflexivity|].
  rewrite sum_upto_S, IH, (H n) by (intros; auto with lia). lra.
Qed.

Lemma sum_upto_plus (n : nat) (f g : nat → Q) :
  sum_upto n (λ k, f k + g k) == sum_upto n f + sum_upto n g.
Proof.
  induction n as [|n IH]; [reflexivity|].
  rewrite !sum_upto_S, IH. lra.
Qed.

Lemma sum_upto_scale_l (n : nat) (a : Q) (f : nat → Q) :
  sum_upto n (λ k, a * f k) == a * sum_upto n f.
Proof.
  induction n as [|n IH]; [unfold sum_upto; simpl; lra|].
  rewrite !sum_upto_S, IH. lra.
Qed.

Lemma sum_upto_scale_r (n : nat) (a : Q) (f : nat → Q) :
  sum_upto n (λ k, f k * a) == sum_upto n f * a.
Proof.
  induction n as [|n IH]; [unfold sum_upto; simpl; lra|].
  rewrite !sum_upto_S, IH. lra.
Qed.

(** The two orders of summation over a rectangle agree. *)
Lemma sum_upto_swap (m n : nat) (f : nat → nat → Q) :
  sum_upto m (λ i, sum_upto n (λ j, f i j))
  == sum_upto n (λ j, sum_upto m (λ i, f i j)).
Proof.
  induction m as [|m IH].
  - rewrite sum_upto_0. symmetry. apply sum_upto_zero. reflexivity.
  - rewrite sum_upto_S, IH.
    rewrite <- sum_upto_plus. apply sum_upto_ext. intros j _.
    rewrite sum_upto_S. reflexivity.
Qed.

(** A term of a sum of non-negative numbers is at most the sum. *)
Lemma sum_upto_term_le (n : nat) (f : nat → Q) (k : nat) :
  (∀ i, (i < n)%nat → 0 <= f i) → (k < n)%nat → f k <= sum_upto n f.
Proof.
  intros H. induction n as [|n IH]; intros Hk; [lia|].
  rewrite sum_upto_S.
  assert (0 <= f n) by (apply H; lia).
  assert (0 <= sum_upto n f) by (apply sum_upto_nonneg; intros; apply H; lia).
  destruct (decide (k = n)) as [->|Hne]; [lra|].
  assert (f k <= sum_upto n f) by (apply IH; [intros; apply H|]; lia).
  lra.
Qed.


Lemma total_nthQ (l : list Q) : total l == sum_upto (length l) (nthQ l).
Proof.
  induction l as [|a l IH] using rev_ind; [reflexivity|].
  rewrite length_app, total_app. simpl.
  replace (length l + 1)%nat with (S (length l)) by lia.
  rewrite sum_upto_S, IH.
  unfold nthQ at 3. rewrite lookup_app_r, Nat.sub_diag by lia. simpl.
  assert (sum_upto (length l) (nthQ (l ++ [a])) == sum_upto (length l) (nthQ l)).
  { apply sum_upto_ext. intros k Hk. unfold nthQ.
    rewrite lookup_app_l by lia. reflexivity. }
  unfold total. simpl. lra.
Qed.

(** ** The model builder builds the transportation program *)

Lemma lookup_nthQ (l : list Q) (i : nat) :
  (i < length l)%nat → l !! i = Some (nthQ l i).
Proof.
  intros H. unfold nthQ.
  destruct (lookup_lt_is_Some_2 l i H) as [q ->]. reflexivity.
Qed.

Lemma at2_cost_of (costs : list (list Q)) (m n i j : nat) :
  length costs = m → Forall (λ row, length row = n) costs →
  (i < m)%nat → (j < n)%nat → at2 costs i j = Some (cost_of costs i j).
Proof.
  intros Hm Hn Hi Hj. unfold cost_of, at2.
  destruct (lookup_lt_is_Some_2 costs i) as [row Hrow]; [lia|].
  rewrite Hrow. simpl.
  assert (length row = n) as Hlen.
  { rewrite Forall_lookup in Hn. by apply (Hn i). }
  destruct (lookup_lt_is_Some_2 row j) as [c Hc]; [lia|].
  rewrite Hc. reflexivity.
Qed.

Lemma add_var_at_Some (costs : list (list Q)) (i j : nat) (M : Model)
    (x : gmap (nat * nat) handle) :
  at2 costs i j = Some (cost_of costs i j) →
  add_var_at costs i (M, x) j
  = Some (mkModel (ModelName M) (OutputFlag M) (modelSense M)
                  (vars M ++ [var_of costs i j]) (constrs M),
          <[(i, j) := length (vars M)]> x).
Proof. intros H. unfold add_var_at. rewrite H. reflexivity. Qed.

Lemma add_vars_row_seq (costs : list (list Q)) (i len : nat) :
  ∀ (a : nat) (M : Model) (x : gmap (nat * nat) handle),
  (∀ j, (a ≤ j < a + len)%nat → at2 costs i j = Some (cost_of costs i j)) →
  ∃ x', foldlM (add_var_at costs i) (M, x) (seq a len)
        = Some (mkModel (ModelName M) (OutputFlag M) (modelSense M)
                        (vars M ++ map (var_of costs i) (seq a len))
                        (constrs M), x')
    ∧ ∀ key, x' !! key =
             if decide (key.1 = i ∧ (a ≤ key.2 < a + len)%nat)
             then Some (length (vars M) + (key.2 - a))%nat
             else x !! key.
Proof.
  induction len as [|len IH]; intros a M x Hc.
  - exists x. split.
    + simpl. rewrite app_nil_r. by destruct M.
    + intros key. case_decide; [lia | done].
  - simpl. rewrite add_var_at_Some by (apply Hc; lia). simpl.
    edestruct (IH (S a)) as (x' & -> & Hx').
    { intros j Hj. apply Hc. lia. }
    exists x'. split.
    + simpl. by rewrite <- app_assoc.
    + intros [i' j']. rewrite Hx'. simpl. rewrite length_app. simpl.
      destruct (decide ((i', j') = (i, a))) as [[= -> ->]|Hne].
      * rewrite lookup_insert_eq.
        rewrite decide_False, decide_True by lia. f_equal. lia.
      * rewrite lookup_insert_ne by done.
        repeat case_decide; try done; try lia.
        -- f_equal. lia.
        -- destruct (decide (j' = a)) as [->|]; [|lia].
           destruct Hne. f_equal. lia.
Qed.

Lemma add_vars_seq (costs : list (list Q)) (n len : nat) :
  ∀ (b : nat) (M : Model) (x : gmap (nat * nat) handle),
  (∀ i j, (b ≤ i < b + len)%nat → (j < n)%nat →
          at2 costs i j = Some (cost_of costs i j)) →
  ∃ x', foldlM (add_vars_row costs n) (M, x) (seq b len)
        = Some (mkModel (ModelName M) (OutputFlag M) (modelSense M)
                  (vars M ++ flat_map (λ i, map (var_of costs i) (range n))
                                      (seq b len))
                  (constrs M), x')
    ∧ ∀ key, x' !! key =
             if decide ((b ≤ key.1 < b + len)%nat ∧ (key.2 < n)%nat)
             then Some (length (vars M) + (key.1 - b) * n + key.2)%nat
             else x !! key.
Proof.
  induction len as [|len IH]; intros b M x Hc.
  - exists x. split.
    + simpl. rewrite app_nil_r. by destruct M.
    + intros key. case_decide; [lia | done].
  - simpl.
    change (add_vars_row costs n (M, x) b)
      with (foldlM (add_var_at costs b) (M, x) (seq 0 n)).
    destruct (add_vars_row_seq costs b n 0 M x) as (x1 & -> & Hx1).
    { intros j Hj. apply Hc; lia. }
    simpl.
    edestruct (IH (S b)) as (x' & -> & Hx').
    { intros i j Hi Hj. apply Hc; lia. }
    exists x'. split.
    + simpl. by rewrite <- app_assoc.
    + intros [i j]. rewrite Hx', Hx1. simpl.
      rewrite length_app, length_map, length_seq.
      repeat case_decide; try done; try lia.
      * f_equal. nia.
      * f_equal. assert (i = b) as -> by lia. rewrite Nat.sub_diag. lia.
Qed.

(** Row [i] of a table laid out row by row sits at offset [i * n]. *)
Lemma lookup_rows {A} (f : nat → nat → A) (m n i j : nat) :
  (i < m)%nat → (j < n)%nat →
  flat_map (λ i, map (f i) (range n)) (range m) !! idx n i j = Some (f i j).
Proof.
  intros Hi Hj. induction m as [|m IH]; [lia|].
  rewrite range_S, flat_map_app. simpl. rewrite app_nil_r.
  assert (length (flat_map (λ i, map (f i) (range n)) (range m)) = (m * n)%nat)
    as Hlen.
  { clear. induction m as [|m IH]; [done|].
    rewrite range_S, flat_map_app, length_app, IH. simpl.
    rewrite app_nil_r, length_map. unfold range. rewrite length_seq. lia. }
  unfold idx in *.
  destruct (decide (i = m)) as [->|Hne].
  - rewrite lookup_app_r by lia. rewrite Hlen.
    replace (m * n + j - m * n)%nat with j by lia.
    rewrite list_lookup_fmap. unfold range. rewrite lookup_seq_lt by lia. done.
  - rewrite lookup_app_l by nia. apply IH. lia.
Qed.

Lemma length_vars_of (costs : list (list Q)) (m n : nat) :
  length (vars_of costs m n) = (m * n)%nat.
Proof.
  unfold vars_of. induction m as [|m IH]; [done|].
  rewrite range_S, flat_map_app, length_app, IH. simpl.
  rewrite app_nil_r, length_map. unfold range. rewrite length_seq. lia.
Qed.

Lemma mapM_Some_map {A B} (f : A → option B) (g : A → B) (l : list A) :
  (∀ a, a ∈ l → f a = Some (g a)) → mapM f l = Some (map g l).
Proof.
  induction l as [|a l IH]; intros H; [done|].
  simpl. rewrite H by left. simpl. rewrite IH; [done|].
  intros b Hb. apply H. by right.
Qed.

Lemma elem_of_range (n k : nat) : k ∈ range n ↔ (k < n)%nat.
Proof. unfold range. rewrite elem_of_seq. lia. Qed.

Lemma fold_left_add_var (vs : list handle) (e : LinExpr) :
  fold_left add_var vs e
  = mkLin (constant e) (terms e ++ map (λ v, (1, v)) vs).
Proof.
  revert e. induction vs as [|v vs IH]; intros e; simpl.
  - rewrite app_nil_r. by destruct e.
  - rewrite IH. simpl. by rewrite <- app_assoc.
Qed.

Lemma Grb_sum_Some (vs : list handle) :
  vs ≠ [] → Grb.sum vs = Some (mkLin 0 (map (λ v, (1, v)) vs)).
Proof.
  intros H. destruct vs as [|v vs]; [done|].
  unfold Grb.sum. by rewrite fold_left_add_var.
Qed.

Lemma row_expr_complete (x : gmap (nat * nat) handle) (m n i : nat) :
  x_complete x m n → (i < m)%nat → (0 < n)%nat →
  row_expr x i n = Some (mkLin 0 (map (λ j, (1, idx n i j)) (range n))).
Proof.
  intros Hx Hi Hn. unfold row_expr.
  rewrite (mapM_Some_map _ (idx n i)).
  - simpl. rewrite Grb_sum_Some.
    + by rewrite map_map.
    + destruct n; [lia|]. rewrite range_S, map_app. by destruct (map _ _).
  - intros j Hj%elem_of_range. rewrite Hx. by rewrite decide_True.
Qed.

Lemma col_expr_complete (x : gmap (nat * nat) handle) (m n j : nat) :
  x_complete x m n → (j < n)%nat → (0 < m)%nat →
  col_expr x j m = Some (mkLin 0 (map (λ i, (1, idx n i j)) (range m))).
Proof.
  intros Hx Hj Hm. unfold col_expr.
  rewrite (mapM_Some_map _ (λ i, idx n i j)).
  - simpl. rewrite Grb_sum_Some.
    + by rewrite map_map.
    + destruct m; [lia|]. rewrite range_S, map_app. by destruct (map _ _).
  - intros i Hi%elem_of_range. rewrite Hx. by rewrite decide_True.
Qed.

Lemma add_supply_constr_Some (x : gmap (nat * nat) handle) (supply : list Q)
    (m n i : nat) (M : Model) :
  x_complete x m n → (0 < n)%nat → length supply = m → (i < m)%nat →
  add_supply_constr x supply n M i
  = Some (mkModel (ModelName M) (OutputFlag M) (modelSense M) (vars M)
                  (constrs M ++ [capacity supply n i])).
Proof.
  intros Hx Hn Hs Hi. unfold add_supply_constr.
  rewrite (row_expr_complete x m n) by done. simpl.
  rewrite lookup_nthQ by lia. reflexivity.
Qed.

Lemma add_demand_constr_Some (x : gmap (nat * nat) handle) (demand : list Q)
    (m n j : nat) (M : Model) :
  x_complete x m n → (0 < m)%nat → length demand = n → (j < n)%nat →
  add_demand_constr x demand m M j
  = Some (mkModel (ModelName M) (OutputFlag M) (modelSense M) (vars M)
                  (constrs M ++ [coverage demand m n j])).
Proof.
  intros Hx Hm Hd Hj. unfold add_demand_constr.
  rewrite (col_expr_complete x m n) by done. simpl.
  rewrite lookup_nthQ by lia. reflexivity.
Qed.

Lemma add_supply_constrs_seq (x : gmap (nat * nat) handle) (supply : list Q)
    (m n len : nat) :
  x_complete x m n → (0 < n)%nat → length supply = m →
  ∀ (b : nat) (M : Model), (b + len ≤ m)%nat →
  foldlM (add_supply_constr x supply n) M (seq b len)
  = Some (mkModel (ModelName M) (OutputFlag M) (modelSense M) (vars M)
                  (constrs M ++ map (capacity supply n) (seq b len))).
Proof.
  intros Hx Hn Hs. induction len as [|len IH]; intros b M Hb.
  - simpl. rewrite app_nil_r. by destruct M.
  - simpl. rewrite (add_supply_constr_Some x supply m n) by (done || lia).
    simpl. rewrite IH by lia. simpl. by rewrite <- app_assoc.
Qed.

Lemma add_demand_constrs_seq (x : gmap (nat * nat) handle) (demand : list Q)
    (m n len : nat) :
  x_complete x m n → (0 < m)%nat → length demand = n →
  ∀ (b : nat) (M : Model), (b + len ≤ n)%nat →
  foldlM (add_demand_constr x demand m) M (seq b len)
  = Some (mkModel (ModelName M) (OutputFlag M) (modelSense M) (vars M)
                  (constrs M ++ map (coverage demand m n) (seq b len))).
Proof.
  intros Hx Hm Hd. induction len as [|len IH]; intros b M Hb.
  - simpl. rewrite app_nil_r. by destruct M.
  - simpl. rewrite (add_demand_constr_Some x demand m n) by (done || lia).
    simpl. rewrite IH by lia. simpl. by rewrite <- app_assoc.
Qed.

(** The builder returns the transportation program, and [x] holds the
    column of every pair: the code refines section 4.1. *)
Lemma build_model_lp (supply demand : list Q) (costs : list (list Q))
    (m n : nat) :
  (0 < m)%nat → (0 < n)%nat → shaped supply demand costs m n →
  ∃ x, build_model supply demand costs m n
       = Some (transport_lp supply demand costs m n, x)
     ∧ x_complete x m n.
Proof.
  intros Hm Hn (Hs & Hd & Hc & Hr). unfold build_model, add_vars, range.
  destruct (add_vars_seq costs n m 0
              (setOutputFlag (Grb.new "transport") 0) ∅) as (x & -> & Hx).
  { intros i j Hi Hj. apply (at2_cost_of costs m n); (done || lia). }
  assert (x_complete x m n) as Hcomplete.
  { intros i j. rewrite Hx. simpl. rewrite lookup_empty.
    repeat case_decide; try done; try lia.
    unfold idx. f_equal. lia. }
  exists x. split; [|done]. simpl.
  unfold add_supply_constrs, add_demand_constrs, range.
  rewrite (add_supply_constrs_seq x supply m n) by (done || lia). simpl.
  rewrite (add_demand_constrs_seq x demand m n) by (done || lia). simpl.
  reflexivity.
Qed.

(** ** What the transportation program means *)

Lemma eval_ones (ρ : valuation) (h : nat → handle) (l : list nat) :
  eval ρ (mkLin 0 (map (λ k, (1, h k)) l)) == total (map (λ k, ρ (h k)) l).
Proof.
  unfold eval, total. simpl. induction l as [|k l IH]; simpl; [reflexivity|].
  rewrite IH. lra.
Qed.

Lemma sat_capacity (ρ : valuation) (supply : list Q) (n i : nat) :
  sat ρ (capacity supply n i)
  ↔ sum_upto n (flow_of n ρ i) <= nthQ supply i.
Proof.
  unfold sat, capacity. simpl. rewrite eval_ones. reflexivity.
Qed.

Lemma sat_coverage (ρ : valuation) (demand : list Q) (m n j : nat) :
  sat ρ (coverage demand m n j)
  ↔ nthQ demand j <= sum_upto m (λ i, flow_of n ρ i j).
Proof.
  unfold sat, coverage. simpl. rewrite eval_ones. reflexivity.
Qed.

Lemma lookup_vars_of (costs : list (list Q)) (m n k : nat) (v : Var) :
  vars_of costs m n !! k = Some v →
  ∃ i j, (i < m)%nat ∧ (j < n)%nat ∧ k = idx n i j ∧ v = var_of costs i j.
Proof.
  intros Hk. pose proof (lookup_lt_Some _ _ _ Hk) as Hlt.
  rewrite length_vars_of in Hlt.
  assert (0 < n)%nat as Hn by nia.
  exists (k / n)%nat, (k mod n)%nat.
  assert (k = idx n (k / n) (k mod n)) as Hidx.
  { unfold idx. rewrite (Nat.div_mod_eq k n) at 1. lia. }
  assert (k / n < m)%nat as Hi by (apply Nat.Div0.div_lt_upper_bound; lia).
  assert (k mod n < n)%nat as Hj by (apply Nat.mod_upper_bound; lia).
  repeat split; try done.
  unfold vars_of in Hk. rewrite Hidx, lookup_rows in Hk by done. congruence.
Qed.

(** A valuation is feasible for the program exactly when the flow it
    stands for meets the constraints of section 4.1. *)
Lemma feasible_transport_lp (supply demand : list Q) (costs : list (list Q))
    (m n : nat) (ρ : valuation) :
  feasible (transport_lp supply demand costs m n) ρ
  ↔ admissible supply demand m n (flow_of n ρ).
Proof.
  unfold feasible, admissible. simpl. rewrite Forall_app, !Forall_fmap.
  rewrite !Forall_forall. split.
  - intros (Hlb & Hcap & Hcov). repeat split.
    + intros i j Hi Hj.
      apply (Hlb (idx n i j) (var_of costs i j)).
      by apply lookup_rows.
    + intros i Hi. apply sat_capacity, Hcap. by apply elem_of_range.
    + intros j Hj. apply (sat_coverage ρ demand m n j), Hcov.
      by apply elem_of_range.
  - intros (Hlb & Hcap & Hcov). repeat split.
    + intros k v (i & j & Hi & Hj & -> & ->)%lookup_vars_of. simpl.
      by apply Hlb.
    + intros i Hi%elem_of_range. apply sat_capacity. by apply Hcap.
    + intros j Hj%elem_of_range. apply sat_coverage. by apply Hcov.
Qed.

Lemma objective_from_app (k : handle) (l1 l2 : list Var) (ρ : valuation) :
  objective_from k (l1 ++ l2) ρ
  == objective_from k l1 ρ + objective_from (k + length l1)%nat l2 ρ.
Proof.
  revert k. induction l1 as [|v l1 IH]; intros k; simpl.
  - rewrite Nat.add_0_r. lra.
  - rewrite IH. replace (S k + length l1)%nat with (k + S (length l1))%nat by lia.
    lra.
Qed.

Lemma objective_from_row (costs : list (list Q)) (ρ : valuation)
    (base i len : nat) :
  ∀ a, objective_from (base + a)%nat (map (var_of costs i) (seq a len)) ρ
       == total (map (λ j, cost_of costs i j * ρ (base + j)%nat) (seq a len)).
Proof.
  induction len as [|len IH]; intros a; simpl; [reflexivity|].
  replace (S (base + a))%nat with (base + S a)%nat by lia.
  rewrite IH. unfold total. simpl. lra.
Qed.

(** The objective function of the program is the cost of the flow. *)
Lemma objective_transport_lp (supply demand : list Q) (costs : list (list Q))
    (m n : nat) (ρ : valuation) :
  objective (transport_lp supply demand costs m n) ρ
  == flow_cost costs m n (flow_of n ρ).
Proof.
  unfold objective, flow_cost. simpl. unfold vars_of.
  induction m as [|m IH]; [reflexivity|].
  rewrite range_S, flat_map_app, objective_from_app, IH, sum_upto_S.
  simpl. rewrite app_nil_r.
  fold (vars_of costs m n). rewrite length_vars_of.
  pose proof (objective_from_row costs ρ (m * n) m n 0) as Hrow.
  rewrite Nat.add_0_r in Hrow. rewrite Hrow. reflexivity.
Qed.

(** ** Running solve_transport *)

Lemma reads_shaped (self : TransportApp) (supply demand : list Q)
    (costs : list (list Q)) :
  reads self supply demand costs →
  shaped supply demand costs (spin_usines self) (spin_entrepots self).
Proof.
  intros (Hs & Hd & Hc). unfold read_row, read_costs, range in *.
  apply length_mapM in Hs as Hs'. apply length_mapM in Hd as Hd'.
  apply length_mapM in Hc as Hc'. rewrite length_seq in *.
  repeat split; try done.
  apply mapM_Some_1 in Hc. clear -Hc.
  induction Hc as [|i row ? ? Hrow _ IH]; constructor; [|done].
  unfold read_row, range in Hrow.
  apply length_mapM in Hrow. by rewrite length_seq in Hrow.
Qed.

(** Declining the confirmation ends the method at once. *)
Lemma click_solve_declined (self : TransportApp) (solver : Model → Outcome)
    (supply demand : list Q) (costs : list (list Q)) :
  reads self supply demand costs → unbalanced supply demand →
  click_solve self No solver = (self, [confirmation supply demand]).
Proof.
  intros (Hs & Hd & Hc) Hu.
  unfold click_solve, solve_transport, try_except, solve_body, bind, get, lift.
  simpl. rewrite Hs, Hd, Hc.
  destruct (Qlt_le_dec _ _) as [_|Hle].
  2:{ unfold unbalanced in Hu. by apply Qlt_not_le in Hu. }
  simpl. by destruct self.
Qed.

(** A confirmed or balanced solve with a non-optimal answer. *)
Lemma click_solve_not_optimal (self : TransportApp) (reply : StandardButton)
    (solver : Model → Outcome) (supply demand : list Q)
    (costs : list (list Q)) (M : Model) (x : gmap (nat * nat) handle) :
  reads self supply demand costs →
  (unbalanced supply demand → reply = Yes) →
  build_model supply demand costs (spin_usines self) (spin_entrepots self)
  = Some (M, x) →
  status (solver M) ≠ OPTIMAL →
  click_solve self reply solver
  = (with_status self [Lit "✗ Aucune solution optimale trouvée"],
     asked supply demand
     ++ [processEvents; optimize M;
         warning "Aucune solution" (no_solution_text (status (solver M)))]).
Proof.
  intros (Hs & Hd & Hc) Hu HM Hst.
  unfold click_solve, solve_transport, try_except, solve_body, bind, get, lift.
  simpl. rewrite Hs, Hd, Hc. unfold asked.
  destruct (Qlt_le_dec _ _) as [Hlt|Hle]; simpl.
  - rewrite (Hu Hlt). simpl. rewrite HM. simpl.
    rewrite decide_False by done. reflexivity.
  - rewrite HM. simpl. rewrite decide_False by done. reflexivity.
Qed.

(** A grid that cannot be read ends the solve in the handler. *)
Lemma click_solve_unreadable (self : TransportApp) (reply : StandardButton)
    (solver : Model → Outcome) :
  read_row (table_offres self) 0 (spin_usines self) = None →
  click_solve self reply solver
  = (with_status self [Lit "✗ Erreur lors de la résolution"],
     [critical "Erreur de résolution"
        [Lit "Une erreur est survenue:
"; StrExc]]).
Proof.
  intros Hs.
  unfold click_solve, solve_transport, try_except, solve_body, bind, get, lift.
  simpl. rewrite Hs. reflexivity.
Qed.

(** ** The formatter as a function on the results table *)

Lemma with_results_id (a : TransportApp) : with_results a (table_results a) = a.
Proof. by destruct a. Qed.

Lemma for_on_results {B} (g : QTableWidget → B → QTableWidget)
    (body : B → UI unit) (l : list B) :
  (∀ b w, b ∈ l →
     body b w = (Some (), (with_results w.1 (g (table_results w.1) b), w.2))) →
  ∀ w, for_ l body w
       = (Some (), (with_results w.1 (fold_left g l (table_results w.1)), w.2)).
Proof.
  induction l as [|b l IH]; intros Hbody w; simpl.
  - unfold ret. rewrite with_results_id. by destruct w.
  - unfold bind. rewrite Hbody by left. rewrite IH; [done|].
    intros b' w' Hb'. apply Hbody. by right.
Qed.

Lemma for_acc_fill_cell (costs : list (list Q)) (x : gmap (nat * nat) handle)
    (o : Outcome) (m n i len : nat) :
  x_complete x m n → (i < m)%nat →
  (∀ j, (j < n)%nat → at2 costs i j = Some (cost_of costs i j)) →
  ∀ (a : nat) (acc : Q * Q) (w : World), (a + len ≤ n)%nat →
  for_acc (seq a len) acc (fill_cell costs x o i) w
  = (Some (fold_left (λ c j, c + cost_of costs i j * flow_at o n i j)
                     (seq a len) acc.1,
           fold_left (λ f j, f + flow_at o n i j) (seq a len) acc.2),
     (with_results w.1
        (fold_left (λ T j, setItem T i j [F2 (flow_at o n i j)]) (seq a len)
                   (table_results w.1)), w.2)).
Proof.
  intros Hx Hi Hc. induction len as [|len IH]; intros a acc w Ha; simpl.
  - unfold ret. rewrite with_results_id. by destruct w, acc.
  - unfold bind at 1. unfold fill_cell at 1. unfold bind, lift.
    rewrite Hx, decide_True by lia. rewrite Hc by lia. simpl.
    rewrite IH by lia. reflexivity.
Qed.

Lemma fill_row_run (costs : list (list Q)) (x : gmap (nat * nat) handle)
    (o : Outcome) (m n i : nat) (w : World) :
  x_complete x m n → (i < m)%nat →
  (∀ j, (j < n)%nat → at2 costs i j = Some (cost_of costs i j)) →
  fill_row costs x o n i w
  = (Some (), (with_results w.1 (filled_row costs o n (table_results w.1) i),
               w.2)).
Proof.
  intros Hx Hi Hc. unfold fill_row, bind, range.
  rewrite (for_acc_fill_cell costs x o m n i n Hx Hi Hc) by lia.
  reflexivity.
Qed.

Lemma fill_demand_run (x : gmap (nat * nat) handle) (o : Outcome)
    (m n j : nat) (w : World) :
  x_complete x m n → (j < n)%nat →
  fill_demand x o m j w
  = (Some (), (with_results w.1
                 (setItem (table_results w.1) m j [F2 (col_flow o m n j)]),
               w.2)).
Proof.
  intros Hx Hj. unfold fill_demand, bind, lift.
  rewrite (mapM_Some_map _ (λ i, idx n i j)).
  - unfold col_flow, flow_at. by rewrite map_map.
  - intros i Hi%elem_of_range. rewrite Hx. by rewrite decide_True.
Qed.

(** On an [OPTIMAL] answer the method fills the form as [solved] says. *)
Lemma show_solution_run (costs : list (list Q)) (x : gmap (nat * nat) handle)
    (M : Model) (o : Outcome) (m n : nat) (self : TransportApp)
    (ev : list Event) :
  x_complete x m n →
  (∀ i j, (i < m)%nat → (j < n)%nat →
          at2 costs i j = Some (cost_of costs i j)) →
  spin_usines self = m → spin_entrepots self = n →
  show_solution costs x M o m n (self, ev) = (Some (), (solved self costs M o, ev)).
Proof.
  intros Hx Hc Hm Hn. unfold show_solution.
  unfold bind at 1 2 3 4 5. simpl.
  unfold bind at 1.
  rewrite (for_on_results (filled_row costs o n)).
  2:{ intros i w Hi%elem_of_range. apply (fill_row_run costs x o m n); auto. }
  unfold bind at 1.
  rewrite (for_on_results (λ T j, setItem T m j [F2 (col_flow o m n j)])).
  2:{ intros j w Hj%elem_of_range. by apply fill_demand_run. }
  unfold bind at 1 2. simpl.
  unfold bind at 1.
  rewrite (for_on_results (λ T j, setItem T (m + 1) j (last_row n (objVal o) j))).
  2:{ intros j w _. reflexivity. }
  simpl. unfold solved, filled, cells. rewrite Hm, Hn. reflexivity.
Qed.

(** A confirmed or balanced solve with an [OPTIMAL] answer. *)
Lemma click_solve_optimal (self : TransportApp) (reply : StandardButton)
    (solver : Model → Outcome) (supply demand : list Q)
    (costs : list (list Q)) (M : Model) (x : gmap (nat * nat) handle) :
  reads self supply demand costs →
  (unbalanced supply demand → reply = Yes) →
  build_model supply demand costs (spin_usines self) (spin_entrepots self)
  = Some (M, x) →
  x_complete x (spin_usines self) (spin_entrepots self) →
  status (solver M) = OPTIMAL →
  click_solve self reply solver
  = (solved self costs M (solver M),
     asked supply demand ++ [processEvents; optimize M]).
Proof.
  intros Hr Hu HM Hx Hst.
  pose proof (reads_shaped _ _ _ _ Hr) as (_ & _ & Hlen & Hrows).
  destruct Hr as (Hs & Hd & Hc).
  assert (∀ i j, (i < spin_usines self)%nat → (j < spin_entrepots self)%nat →
                 at2 costs i j = Some (cost_of costs i j)) as Hcost.
  { intros i j. by apply at2_cost_of. }
  unfold click_solve, solve_transport, try_except, solve_body.
  unfold bind at 1 2 3 4 5 6. unfold get, lift.
  simpl. rewrite Hs, Hd, Hc. unfold asked.
  destruct (Qlt_le_dec _ _) as [Hlt|Hle]; simpl.
  - rewrite (Hu Hlt). simpl. unfold bind at 1 2 3 4. simpl.
    rewrite HM. simpl. rewrite decide_True by done.
    rewrite (show_solution_run costs x M (solver M) _ _ _ _ Hx Hcost) by done.
    reflexivity.
  - unfold bind at 1 2 3 4. simpl.
    rewrite HM. simpl. rewrite decide_True by done.
    rewrite (show_solution_run costs x M (solver M) _ _ _ _ Hx Hcost) by done.
    reflexivity.
Qed.

(** ** The cells of the filled table *)

Lemma setItem_rowCount (T : QTableWidget) (i j : nat) (c : fstring) :
  rowCount (setItem T i j c) = rowCount T.
Proof. unfold setItem. by case_decide. Qed.

Lemma setItem_columnCount (T : QTableWidget) (i j : nat) (c : fstring) :
  columnCount (setItem T i j c) = columnCount T.
Proof. unfold setItem. by case_decide. Qed.

Lemma item_setItem (T : QTableWidget) (i j : nat) (c : fstring) (i' j' : nat) :
  (i < rowCount T)%nat → (j < columnCount T)%nat →
  item (setItem T i j c) i' j'
  = if decide (i' = i ∧ j' = j) then Some c else item T i' j'.
Proof.
  intros Hi Hj. unfold setItem, item. rewrite decide_True by done. simpl.
  case_decide as H.
  - destruct H as [-> ->]. apply lookup_insert_eq.
  - apply lookup_insert_ne. intros [= -> ->]. by destruct H.
Qed.

Lemma cells_S (i : nat) (v : nat → fstring) (n : nat) (T : QTableWidget) :
  cells i v (S n) T = setItem (cells i v n T) i n (v n).
Proof. unfold cells. by rewrite range_S, fold_left_app. Qed.

Lemma cells_rowCount (i : nat) (v : nat → fstring) (n : nat)
    (T : QTableWidget) : rowCount (cells i v n T) = rowCount T.
Proof.
  induction n as [|n IH]; [done|]. by rewrite cells_S, setItem_rowCount.
Qed.

Lemma cells_columnCount (i : nat) (v : nat → fstring) (n : nat)
    (T : QTableWidget) : columnCount (cells i v n T) = columnCount T.
Proof.
  induction n as [|n IH]; [done|]. by rewrite cells_S, setItem_columnCount.
Qed.

Lemma item_cells (i : nat) (v : nat → fstring) (n : nat) (T : QTableWidget)
    (i' j' : nat) :
  (i < rowCount T)%nat → (n ≤ columnCount T)%nat →
  item (cells i v n T) i' j'
  = if decide (i' = i ∧ (j' < n)%nat) then Some (v j') else item T i' j'.
Proof.
  intros Hi. induction n as [|n IH]; intros Hn.
  - rewrite decide_False by lia. done.
  - rewrite cells_S, item_setItem, IH
      by (rewrite ?cells_rowCount, ?cells_columnCount; lia).
    repeat case_decide; try done; try lia.
    by destruct_and!; subst.
Qed.

Lemma filled_row_rowCount (costs : list (list Q)) (o : Outcome) (n : nat)
    (T : QTableWidget) (i : nat) :
  rowCount (filled_row costs o n T i) = rowCount T.
Proof.
  unfold filled_row. by rewrite !setItem_rowCount, cells_rowCount.
Qed.

Lemma filled_row_columnCount (costs : list (list Q)) (o : Outcome) (n : nat)
    (T : QTableWidget) (i : nat) :
  columnCount (filled_row costs o n T i) = columnCount T.
Proof.
  unfold filled_row. by rewrite !setItem_columnCount, cells_columnCount.
Qed.

Lemma item_filled_row (costs : list (list Q)) (o : Outcome) (n : nat)
    (T : QTableWidget) (i i' j' : nat) :
  (i < rowCount T)%nat → (n + 2 ≤ columnCount T)%nat →
  item (filled_row costs o n T i) i' j'
  = if decide (i' = i ∧ (j' < n + 2)%nat)
    then Some (if decide (j' < n)%nat then [F2 (flow_at o n i j')]
               else if decide (j' = n) then [F2 (row_flow o n i)]
               else [F2 (row_cost costs o n i)])
    else item T i' j'.
Proof.
  intros Hi Hn. unfold filled_row.
  rewrite !item_setItem, item_cells
    by (rewrite ?setItem_rowCount, ?setItem_columnCount,
                ?cells_rowCount, ?cells_columnCount; lia).
  repeat case_decide; try done; lia.
Qed.

Lemma rows_S (costs : list (list Q)) (o : Outcome) (n m : nat)
    (T : QTableWidget) :
  fold_left (filled_row costs o n) (range (S m)) T
  = filled_row costs o n (fold_left (filled_row costs o n) (range m) T) m.
Proof. by rewrite range_S, fold_left_app. Qed.

Lemma rows_rowCount (costs : list (list Q)) (o : Outcome) (n m : nat)
    (T : QTableWidget) :
  rowCount (fold_left (filled_row costs o n) (range m) T) = rowCount T.
Proof.
  induction m as [|m IH]; [done|]. by rewrite rows_S, filled_row_rowCount.
Qed.

Lemma rows_columnCount (costs : list (list Q)) (o : Outcome) (n m : nat)
    (T : QTableWidget) :
  columnCount (fold_left (filled_row costs o n) (range m) T) = columnCount T.
Proof.
  induction m as [|m IH]; [done|]. by rewrite rows_S, filled_row_columnCount.
Qed.

Lemma item_rows (costs : list (list Q)) (o : Outcome) (n m : nat)
    (T : QTableWidget) (i' j' : nat) :
  (m ≤ rowCount T)%nat → (n + 2 ≤ columnCount T)%nat →
  item (fold_left (filled_row costs o n) (range m) T) i' j'
  = if decide ((i' < m)%nat ∧ (j' < n + 2)%nat)
    then Some (if decide (j' < n)%nat then [F2 (flow_at o n i' j')]
               else if decide (j' = n) then [F2 (row_flow o n i')]
               else [F2 (row_cost costs o n i')])
    else item T i' j'.
Proof.
  intros Hm Hn. induction m as [|m IH].
  - rewrite decide_False by lia. done.
  - rewrite rows_S, item_filled_row, IH
      by (rewrite ?rows_rowCount, ?rows_columnCount; lia).
    repeat case_decide; try done; try lia; by destruct_and!; subst.
Qed.

Lemma item_resized (T : QTableWidget) (r c : nat) (i j : nat) :
  item (setVerticalHeaderLabels
          (setHorizontalHeaderLabels (setColumnCount (setRowCount T r) c)
             (headers (c - 2))) (vertical_headers (r - 2))) i j
  = if decide ((i < r)%nat ∧ (j < c)%nat) then item T i j else None.
Proof.
  unfold item. simpl.
  destruct (items T !! (i, j)) as [t|] eqn:Hij.
  - case_decide as H.
    + apply map_lookup_filter_Some. split; [|simpl; lia].
      apply map_lookup_filter_Some. split; [done | simpl; lia].
    + apply map_lookup_filter_None. right. intros t' Ht' Hj. simpl in *.
      apply map_lookup_filter_Some in Ht' as [_ Hi]. simpl in *. lia.
  - assert (filter (λ kv, (kv.1.2 < c)%nat)
              (filter (λ kv, (kv.1.1 < r)%nat) (items T)) !! (i, j) = None)
      as ->; [|by case_decide].
    apply map_lookup_filter_None. left.
    apply map_lookup_filter_None. by left.
Qed.

(** The filled table, cell by cell: every cell of the [m + 2] rows and
    [n + 2] columns is written, whatever the table held before. *)
Lemma item_filled (costs : list (list Q)) (o : Outcome) (m n : nat)
    (T : QTableWidget) (i j : nat) :
  item (filled costs o m n T) i j = cell_of costs o m n i j.
Proof.
  unfold filled. cbv zeta.
  set (T0 := setVerticalHeaderLabels _ _).
  assert (rowCount T0 = (m + 2)%nat) as Hr by done.
  assert (columnCount T0 = (n + 2)%nat) as Hc by done.
  assert (∀ i j, item T0 i j
                 = if decide ((i < m + 2)%nat ∧ (j < n + 2)%nat)
                   then item T i j else None) as H0.
  { intros i' j'. subst T0.
    replace n with (n + 2 - 2)%nat at 2 by lia.
    replace m with (m + 2 - 2)%nat at 2 by lia.
    apply item_resized. }
  rewrite item_cells, !item_setItem, item_cells, item_rows, H0
    by (rewrite ?setItem_rowCount, ?setItem_columnCount, ?cells_rowCount,
                ?cells_columnCount, ?rows_rowCount, ?rows_columnCount; lia).
  unfold cell_of, last_row.
  repeat case_decide; try done; try lia.
Qed.

(** ** The aggregates of the formatter are sums *)

Lemma fold_left_acc (f : nat → Q) (l : list nat) (a : Q) :
  fold_left (λ acc j, acc + f j) l a == a + total (map f l).
Proof.
  revert a. induction l as [|k l IH]; intros a; simpl.
  - unfold total. simpl. lra.
  - rewrite IH. unfold total. simpl. lra.
Qed.


Lemma row_cost_sum (costs : list (list Q)) (o : Outcome) (n i : nat) :
  row_cost costs o n i
  == sum_upto n (λ j, cost_of costs i j * flow_at o n i j).
Proof.
  unfold row_cost.
  rewrite (fold_left_acc (λ j, cost_of costs i j * flow_at o n i j)).
  unfold sum_upto. lra.
Qed.


Lemma sum_supply (l : list Q) : Py.sum l == sum_upto (length l) (nthQ l).
Proof. rewrite sum_total. apply total_nthQ. Qed.

(** ** Flows that meet the constraints *)




Lemma flow_of_valuation_of (n : nat) (f : nat → nat → Q) (i j : nat) :
  (j < n)%nat → flow_of n (valuation_of n f) i j = f i j.
Proof.
  intros Hj. unfold flow_of, valuation_of, idx.
  rewrite Nat.div_add_l, Nat.div_small, Nat.add_0_r by lia.
  rewrite Nat.add_comm, Nat.Div0.mod_add, Nat.mod_small by lia. done.
Qed.

Lemma nthQ_nonneg (l : list Q) (i : nat) :
  Forall (λ q, 0 <= q) l → 0 <= nthQ l i.
Proof.
  intros H. unfold nthQ. destruct (l !! i) as [q|] eqn:Hi; simpl; [|lra].
  rewrite Forall_lookup in H. by apply (H i).
Qed.

(** With enough supply the proportional flow meets every constraint. *)
Lemma share_admissible (supply demand : list Q) (m n : nat) :
  Forall (λ q, 0 <= q) supply → Forall (λ q, 0 <= q) demand →
  sum_upto n (nthQ demand) <= sum_upto m (nthQ supply) →
  admissible supply demand m n (share supply demand m).
Proof.
  intros Hs Hd Hle.
  set (S := sum_upto m (nthQ supply)) in *.
  set (D := sum_upto n (nthQ demand)) in *.
  assert (∀ i, 0 <= nthQ supply i) as Hs0 by (intros; by apply nthQ_nonneg).
  assert (∀ j, 0 <= nthQ demand j) as Hd0 by (intros; by apply nthQ_nonneg).
  assert (0 <= D) as HD0 by (apply sum_upto_nonneg; auto).
  assert (∀ i, sum_upto n (λ j, share supply demand m i j)
               == nthQ supply i * D / S) as Hrow.
  { intros i. unfold share. fold S.
    rewrite (sum_upto_ext n _ (λ j, (nthQ supply i * / S) * nthQ demand j)).
    - rewrite sum_upto_scale_l. fold D. unfold Qdiv. ring.
    - intros j _. unfold Qdiv. ring. }
  assert (∀ j, sum_upto m (λ i, share supply demand m i j)
               == S * nthQ demand j / S) as Hcol.
  { intros j. unfold share. fold S.
    rewrite (sum_upto_ext m _ (λ i, nthQ supply i * (nthQ demand j * / S))).
    - rewrite sum_upto_scale_r. fold S. unfold Qdiv. ring.
    - intros i _. unfold Qdiv. ring. }
  destruct (Qlt_le_dec 0 S) as [Hpos|Hzero].
  - assert (0 < / S) as Hinv by (by apply Qinv_lt_0_compat).
    repeat split.
    + intros i j _ _. unfold share. fold S. unfold Qdiv.
      apply Qmult_le_0_compat; [apply Qmult_le_0_compat; auto | lra].
    + intros i Hi. rewrite Hrow.
      assert (nthQ supply i * S / S == nthQ supply i) as Heq by (field; lra).
      assert (nthQ supply i * D / S <= nthQ supply i * S / S) as Hle'.
      { unfold Qdiv. apply Qmult_le_compat_r; [|lra].
        rewrite !(Qmult_comm (nthQ supply i)).
        apply Qmult_le_compat_r; auto. }
      lra.
    + intros j Hj. rewrite Hcol.
      assert (S * nthQ demand j / S == nthQ demand j) as Heq by (field; lra).
      lra.
  - assert (S == 0) as HS.
    { assert (0 <= S) by (apply sum_upto_nonneg; auto). lra. }
    assert (/ S == 0) as HinvS by (rewrite HS; reflexivity).
    assert (∀ j, (j < n)%nat → nthQ demand j == 0) as Hdz.
    { intros j Hj.
      pose proof (sum_upto_term_le n (nthQ demand) j (λ k _, Hd0 k) Hj).
      fold D in H. specialize (Hd0 j). lra. }
    repeat split.
    + intros i j _ _. unfold share. fold S. unfold Qdiv.
      rewrite HinvS. lra.
    + intros i Hi. rewrite Hrow. unfold Qdiv. rewrite HinvS.
      specialize (Hs0 i). lra.
    + intros j Hj. rewrite Hcol. unfold Qdiv. rewrite HinvS, Hdz by done. lra.
Qed.

(** ** The model that reaches the solver *)

(** A solve that goes on hands the solver the program built from the
    numbers of the grids as they are, after the dialog of the balance
    test if there was one. *)
Lemma click_solve_model (self : TransportApp) (reply : StandardButton)
    (solver : Model → Outcome) (supply demand : list Q)
    (costs : list (list Q)) :
  reads self supply demand costs →
  (unbalanced supply demand → reply = Yes) →
  (0 < spin_usines self)%nat → (0 < spin_entrepots self)%nat →
  ∃ tail,
    (click_solve self reply solver).2
    = asked supply demand
      ++ [processEvents;
          optimize (transport_lp supply demand costs (spin_usines self)
                                 (spin_entrepots self))] ++ tail.
Proof.
  intros Hr Hu Hm Hn.
  destruct (build_model_lp supply demand costs _ _ Hm Hn
              (reads_shaped _ _ _ _ Hr)) as (x & HM & Hx).
  set (M := transport_lp _ _ _ _ _) in *.
  destruct (decide (status (solver M) = OPTIMAL)) as [Hopt|Hopt].
  - exists []. by rewrite (click_solve_optimal _ _ _ _ _ _ M x Hr Hu HM Hx Hopt).
  - eexists. by rewrite (click_solve_not_optimal _ _ _ _ _ _ M x Hr Hu HM Hopt).
Qed.

(** Beyond the tolerance the confirmation dialog is the first thing a
    solve shows, whatever the answer. *)
Lemma click_solve_asks (self : TransportApp) (reply : StandardButton)
    (solver : Model → Outcome) (supply demand : list Q)
    (costs : list (list Q)) :
  reads self supply demand costs → unbalanced supply demand →
  (0 < spin_usines self)%nat → (0 < spin_entrepots self)%nat →
  ∃ tail,
    (click_solve self reply solver).2 = confirmation supply demand :: tail.
Proof.
  intros Hr Hu Hm Hn. destruct reply.
  - destruct (click_solve_model self Yes solver supply demand costs Hr)
      as [tail Htail]; [done..|].
    rewrite Htail. unfold asked.
    destruct (Qlt_le_dec _ _) as [_|Hle]; [by eexists|].
    unfold unbalanced in Hu. by apply Qlt_not_le in Hu.
  - exists []. by rewrite (click_solve_declined self solver _ _ _ Hr Hu).
Qed.

Lemma reads_surplus_form :
  reads Sample.surplus_form [150; 150] [100; 150] Sample.costs22.
Proof. by repeat split. Qed.

(** ** One source and one destination *)

Lemma single_feasible (s d c : Q) (ρ : valuation) :
  feasible (transport_lp [s] [d] [[c]] 1 1) ρ
  ↔ 0 <= ρ 0%nat ∧ ρ 0%nat <= s ∧ d <= ρ 0%nat.
Proof.
  rewrite feasible_transport_lp. unfold admissible. split.
  - intros (Hlb & Hcap & Hcov).
    specialize (Hlb 0%nat 0%nat ltac:(lia) ltac:(lia)).
    specialize (Hcap 0%nat ltac:(lia)). specialize (Hcov 0%nat ltac:(lia)).
    unfold sum_upto, total, flow_of, idx, nthQ in *. simpl in *. lra.
  - intros (H0 & Hs & Hd). repeat split.
    + intros i j Hi Hj. assert (i = 0%nat) as -> by lia.
      assert (j = 0%nat) as -> by lia. unfold flow_of, idx. simpl. lra.
    + intros i Hi. assert (i = 0%nat) as -> by lia.
      unfold sum_upto, total, flow_of, idx, nthQ. simpl. lra.
    + intros j Hj. assert (j = 0%nat) as -> by lia.
      unfold sum_upto, total, flow_of, idx, nthQ. simpl. lra.
Qed.

Lemma single_objective (s d c : Q) (ρ : valuation) :
  objective (transport_lp [s] [d] [[c]] 1 1) ρ == c * ρ 0%nat.
Proof. unfold objective. simpl. unfold cost_of. simpl. ring. Qed.

(** Shipping the 5 units at their cost is a sound optimal answer for the
    single-cell sample. *)
Lemma sound_shipping (c : Q) (M : Model) :
  sound (transport_lp [5] [5] [[c]] 1 1) (Sample.shipping (c * 5) M).
Proof.
  intros _. simpl. split; [|split].
  - apply single_feasible. lra.
  - rewrite single_objective. reflexivity.
  - intros ρ (H0 & Hs & Hd)%single_feasible. rewrite single_objective.
    assert (ρ 0%nat == 5) as -> by lra. apply Qle_refl.
Qed.

(** ** What the sample solvers answer *)

(** Shipping the unit at 0.125 is a sound optimal answer. *)
Lemma sound_eighth (M : Model) :
  sound (transport_lp [1] [1] [[1 # 8]] 1 1) (Sample.eighth_answer M).
Proof.
  intros _. simpl. split; [|split].
  - apply single_feasible. lra.
  - rewrite single_objective. reflexivity.
  - intros ρ (H0 & Hs & Hd)%single_feasible. rewrite single_objective. lra.
Qed.


(** ** The results table after an optimal solve *)

Lemma solved_cell (self : TransportApp) (reply : StandardButton)
    (solver : Model → Outcome) (supply demand : list Q)
    (costs : list (list Q)) (i j : nat) :
  reads self supply demand costs →
  (unbalanced supply demand → reply = Yes) →
  (0 < spin_usines self)%nat → (0 < spin_entrepots self)%nat →
  status (solver (transport_lp supply demand costs (spin_usines self)
                               (spin_entrepots self))) = OPTIMAL →
  item (table_results (click_solve self reply solver).1) i j
  = cell_of costs
      (solver (transport_lp supply demand costs (spin_usines self)
                            (spin_entrepots self)))
      (spin_usines self) (spin_entrepots self) i j.
Proof.
  intros Hr Hu Hm Hn Hopt.
  destruct (build_model_lp supply demand costs _ _ Hm Hn
              (reads_shaped _ _ _ _ Hr)) as (x & HM & Hx).
  rewrite (click_solve_optimal _ _ _ _ _ _ _ x Hr Hu HM Hx Hopt).
  simpl. apply item_filled.
Qed.



Lemma cell_of_row_cost (costs : list (list Q)) (o : Outcome) (m n i : nat) :
  (i < m)%nat →
  cell_of costs o m n i (n + 1) = Some [F2 (row_cost costs o n i)].
Proof. intros. unfold cell_of. repeat case_decide; try lia. done. Qed.


Lemma cell_of_total (costs : list (list Q)) (o : Outcome) (m n : nat) :
  cell_of costs o m n (m + 1) (n + 1) = Some [F2 (objVal o)].
Proof.
  unfold cell_of, last_row. repeat case_decide; try lia. done.
Qed.

(** The costs of the rows add up to the objective function at the
    solver's values. *)
Lemma row_costs_objective (supply demand : list Q) (costs : list (list Q))
    (o : Outcome) (m n : nat) :
  sum_upto m (row_cost costs o n)
  == objective (transport_lp supply demand costs m n) (X o).
Proof.
  rewrite objective_transport_lp. unfold flow_cost.
  apply sum_upto_ext. intros i _. apply row_cost_sum.
Qed.

(** ** Zero costs *)

Lemma cost_of_zero (costs : list (list Q)) (i j : nat) :
  Forall (Forall (λ c, c == 0)) costs → cost_of costs i j == 0.
Proof.
  intros H. unfold cost_of, at2.
  destruct (costs !! i) as [row|] eqn:Hrow; simpl; [|reflexivity].
  destruct (row !! j) as [c|] eqn:Hc; simpl; [|reflexivity].
  rewrite Forall_lookup in H. specialize (H i row Hrow).
  rewrite Forall_lookup in H. by apply (H j).
Qed.

Lemma objective_zero_costs (supply demand : list Q) (costs : list (list Q))
    (m n : nat) (ρ : valuation) :
  Forall (Forall (λ c, c == 0)) costs →
  objective (transport_lp supply demand costs m n) ρ == 0.
Proof.
  intros H. rewrite objective_transport_lp. unfold flow_cost.
  apply sum_upto_zero. intros i _. apply sum_upto_zero. intros j _.
  rewrite cost_of_zero by done. ring.
Qed.

(** * The claims *)

(** C1 (the code departs from the claim).  The claim: beyond the tolerance
    the user is asked, and on proceeding a dummy row or column absorbs the
    difference, so that with 300 offered and 250 asked the added capacity
    is 50 and the totals agree before the program is built.  The code at
    that input: the dialog is shown, and on [Yes] the solver receives the
    program of the two sources and two destinations as entered, four
    variables and four rows, offering 300 and asking for 250; nothing is
    added. *)
Theorem C1_no_dummy_added (solver : Model → Outcome) :
  let M := transport_lp [150; 150] [100; 150] Sample.costs22 2 2 in
  (∃ tail,
     (click_solve Sample.surplus_form Yes solver).2
     = [confirmation [150; 150] [100; 150]; processEvents; optimize M] ++ tail)
  ∧ length (vars M) = 4%nat ∧ length (constrs M) = 4%nat
  ∧ rhs_total LESS_EQUAL M == 300 ∧ rhs_total GREATER_EQUAL M == 250.
Proof.
  intros M. split; [|by repeat split].
  destruct (click_solve_model Sample.surplus_form Yes solver
              [150; 150] [100; 150] Sample.costs22) as [tail Htail].
  - apply reads_surplus_form.
  - done.
  - simpl. lia.
  - simpl. lia.
  - exists tail. exact Htail.
Qed.

(** C2.  For a supply vector of length [m], a demand vector of length [n]
    and an [m]-by-[n] cost matrix, the builder returns a model with
    minimisation sense in which every pair [(i, j)] has a variable
    [x[i, j]] with lower bound 0 and objective coefficient [costs[i][j]],
    row [i] of the constraints says that the sum over [j] of [x[i, j]] is
    at most [supply[i]], and row [m + j] says that the sum over [i] of
    [x[i, j]] is at least [demand[j]]. *)
Theorem C2_model_builder (supply demand : list Q) (costs : list (list Q))
    (m n : nat) :
  (0 < m)%nat → (0 < n)%nat → shaped supply demand costs m n →
  ∃ M x,
    build_model supply demand costs m n = Some (M, x)
    ∧ modelSense M = MINIMIZE
    ∧ (∀ i j, (i < m)%nat → (j < n)%nat →
         ∃ h c nm, x !! (i, j) = Some h ∧ at2 costs i j = Some c
                   ∧ vars M !! h = Some (mkVar 0 c nm))
    ∧ (∀ i, (i < m)%nat →
         ∃ e s nm, constrs M !! i = Some (mkConstr e LESS_EQUAL s nm)
                   ∧ supply !! i = Some s
                   ∧ ∀ ρ, eval ρ e
                          == sum_upto n (λ j, ρ (default 0%nat (x !! (i, j)))))
    ∧ (∀ j, (j < n)%nat →
         ∃ e d nm, constrs M !! (m + j)%nat
                   = Some (mkConstr e GREATER_EQUAL d nm)
                   ∧ demand !! j = Some d
                   ∧ ∀ ρ, eval ρ e
                          == sum_upto m (λ i, ρ (default 0%nat (x !! (i, j))))).
Proof.
  intros Hm Hn Hshape.
  destruct (build_model_lp supply demand costs m n Hm Hn Hshape)
    as (x & HM & Hx).
  destruct Hshape as (Hs & Hd & Hc & Hr).
  exists (transport_lp supply demand costs m n), x.
  split; [done|]. split; [done|]. repeat split.
  - intros i j Hi Hj.
    exists (idx n i j), (cost_of costs i j), (var_name i j). repeat split.
    + rewrite Hx. by rewrite decide_True.
    + by apply (at2_cost_of costs m n).
    + simpl. unfold vars_of. by rewrite lookup_rows.
  - intros i Hi. eexists _, _, _. repeat split.
    + simpl. unfold range.
      rewrite lookup_app_l by (rewrite length_map, length_seq; lia).
      rewrite list_lookup_fmap, lookup_seq_lt by lia. reflexivity.
    + apply lookup_nthQ. lia.
    + intros ρ. rewrite eval_ones. apply sum_upto_ext. intros j Hj.
      rewrite Hx, decide_True by done. reflexivity.
  - intros j Hj. eexists _, _, _. repeat split.
    + simpl. unfold range.
      rewrite lookup_app_r by (rewrite length_map, length_seq; lia).
      rewrite length_map, length_seq.
      replace (m + j - m)%nat with j by lia.
      rewrite list_lookup_fmap, lookup_seq_lt by lia. reflexivity.
    + apply lookup_nthQ. lia.
    + intros ρ. rewrite eval_ones. apply sum_upto_ext. intros i Hi.
      rewrite Hx, decide_True by done. reflexivity.
Qed.

Lemma C2_model_builder_witness :
  ∃ M x, build_model [150; 150] [100; 200] Sample.costs22 2 2 = Some (M, x)
         ∧ modelSense M = MINIMIZE.
Proof.
  destruct (C2_model_builder [150; 150] [100; 200] Sample.costs22 2 2)
    as (M & x & HM & Hsense & _).
  - lia.
  - lia.
  - repeat split; repeat constructor.
  - by exists M, x.
Defined.

(** C3.  For a balanced instance with [m] sources and [n] destinations
    the solve asks nothing and hands the solver a program with exactly
    [m * n] variables and [m + n] constraints. *)
Theorem C3_model_size (self : TransportApp) (reply : StandardButton)
    (solver : Model → Outcome) (supply demand : list Q)
    (costs : list (list Q)) :
  reads self supply demand costs →
  (0 < spin_usines self)%nat → (0 < spin_entrepots self)%nat →
  Py.sum supply == Py.sum demand →
  ∃ M x tail,
    build_model supply demand costs (spin_usines self) (spin_entrepots self)
    = Some (M, x)
    ∧ (click_solve self reply solver).2
      = [processEvents; optimize M] ++ tail
    ∧ length (vars M) = (spin_usines self * spin_entrepots self)%nat
    ∧ length (constrs M) = (spin_usines self + spin_entrepots self)%nat.
Proof.
  intros Hr Hm Hn Hbal.
  assert (¬ unbalanced supply demand) as Hnu.
  { unfold unbalanced. rewrite Hbal.
    assert (Py.sum demand - Py.sum demand == 0) as -> by ring.
    apply Qle_not_lt. done. }
  destruct (build_model_lp supply demand costs _ _ Hm Hn
              (reads_shaped _ _ _ _ Hr)) as (x & HM & Hx).
  destruct (click_solve_model self reply solver supply demand costs Hr)
    as [tail Htail]; [done..|].
  exists (transport_lp supply demand costs (spin_usines self)
                       (spin_entrepots self)), x, tail.
  split; [done|]. split; [|split].
  - rewrite Htail. unfold asked.
    destruct (Qlt_le_dec _ _) as [Hlt|_]; [by destruct Hnu | done].
  - apply length_vars_of.
  - simpl. rewrite length_app, !length_map. unfold range.
    by rewrite !length_seq.
Qed.

Lemma C3_model_size_witness :
  ∃ M x tail,
    build_model [150; 150] [100; 200] Sample.costs22 2 2 = Some (M, x)
    ∧ (click_solve Sample.balanced_form Yes Sample.refusing).2
      = [processEvents; optimize M] ++ tail
    ∧ length (vars M) = 4%nat ∧ length (constrs M) = 4%nat.
Proof.
  apply (C3_model_size Sample.balanced_form Yes Sample.refusing
           [150; 150] [100; 200] Sample.costs22).
  - by repeat split.
  - simpl. lia.
  - simpl. lia.
  - reflexivity.
Defined.




(** C5.  When the solver's status is not [OPTIMAL], the warning dialog
    shows the status code as the solver gave it, and nothing of a result
    is rendered: the results table, the solution report, the statistics,
    the export button and the input grids are as they were before the
    solve.  The failure is also reported in the status line, which reads
    that no optimal solution was found; nothing else of the form
    changes. *)
Theorem C5_non_optimal_reported (self : TransportApp) (reply : StandardButton)
    (solver : Model → Outcome) (supply demand : list Q)
    (costs : list (list Q)) :
  reads self supply demand costs →
  (unbalanced supply demand → reply = Yes) →
  (0 < spin_usines self)%nat → (0 < spin_entrepots self)%nat →
  let M := transport_lp supply demand costs (spin_usines self)
                        (spin_entrepots self) in
  let after := (click_solve self reply solver).1 in
  status (solver M) ≠ OPTIMAL →
  (click_solve self reply solver).2
  = asked supply demand
    ++ [processEvents; optimize M;
        warning "Aucune solution"
          [Lit "Statut: "; Dec (status (solver M)); Lit "
Aucune solution optimale trouvée."]]
  ∧ table_results after = table_results self
  ∧ solution_info after = solution_info self
  ∧ stats_text after = stats_text self
  ∧ btn_export after = btn_export self
  ∧ after = with_status self [Lit "✗ Aucune solution optimale trouvée"].
Proof.
  intros Hr Hu Hm Hn M after Hst. subst after.
  destruct (build_model_lp supply demand costs _ _ Hm Hn
              (reads_shaped _ _ _ _ Hr)) as (x & HM & Hx).
  fold M in HM.
  rewrite (click_solve_not_optimal _ _ _ _ _ _ M x Hr Hu HM Hst).
  by repeat split.
Qed.

(** The demand of 350 against a supply of 300 is confirmed by the user
    and found infeasible by the solver. *)
Lemma C5_non_optimal_reported_witness :
  (click_solve Sample.deficit_form Yes Sample.refusing).2
  = [confirmation [150; 150] [200; 150]; processEvents;
     optimize (transport_lp [150; 150] [200; 150] Sample.costs22 2 2);
     warning "Aucune solution"
       [Lit "Statut: "; Dec 3; Lit "
Aucune solution optimale trouvée."]]
  ∧ table_results (click_solve Sample.deficit_form Yes Sample.refusing).1
    = Sample.no_results.
Proof.
  destruct (C5_non_optimal_reported Sample.deficit_form Yes Sample.refusing
              [150; 150] [200; 150] Sample.costs22)
    as (Htrace & Htable & _).
  - by repeat split.
  - done.
  - simpl. lia.
  - simpl. lia.
  - done.
  - split; [exact Htrace|exact Htable].
Defined.

(** C6.  When the totals differ by more than the tolerance and the user
    answers [No] to the confirmation, the solve ends there: the form is
    as it was, and the dialog is the only thing that happened, so no
    model went to the solver. *)
Theorem C6_decline_aborts (self : TransportApp) (solver : Model → Outcome)
    (supply demand : list Q) (costs : list (list Q)) :
  reads self supply demand costs → unbalanced supply demand →
  (click_solve self No solver).1 = self ∧
  (click_solve self No solver).2 = [confirmation supply demand] ∧
  ∀ M, optimize M ∉ (click_solve self No solver).2.
Proof.
  intros Hr Hu. rewrite (click_solve_declined self solver _ _ _ Hr Hu).
  repeat split. intros M HM. apply list_elem_of_singleton in HM. discriminate HM.
Qed.

Lemma C6_decline_aborts_witness :
  (click_solve Sample.surplus_form No Sample.refusing).1 = Sample.surplus_form.
Proof.
  apply (C6_decline_aborts Sample.surplus_form Sample.refusing
           [150; 150] [100; 150] Sample.costs22).
  - by repeat split.
  - by vm_compute.
Defined.

(** C7 fails as stated.  One unit shipped at the unit cost 0.125 is the
    optimal answer to the form that asks for it, and its objective
    value is 0.125.  The last cell of the results table, the grand total
    cost, then shows 0.12: half a hundredth away from the objective
    value, not within 1e-6 of it. *)
Lemma C7_total_in_two_decimals :
  reads Sample.eighth_form [1] [1] [[1 # 8]]
  ∧ status (Sample.eighth_answer (transport_lp [1] [1] [[1 # 8]] 1 1))
    = OPTIMAL
  ∧ sound (transport_lp [1] [1] [[1 # 8]] 1 1)
          (Sample.eighth_answer (transport_lp [1] [1] [[1 # 8]] 1 1))
  ∧ objVal (Sample.eighth_answer (transport_lp [1] [1] [[1 # 8]] 1 1))
    = 1 # 8
  ∧ shown_at (table_results
                (click_solve Sample.eighth_form Yes Sample.eighth_answer).1)
             2 2
    = Some (12 # 100)
  ∧ ¬ Qabs ((12 # 100) - (1 # 8)) <= 1 # 1000000.
Proof.
  split; [by repeat split|]. split; [done|].
  split; [apply sound_eighth|]. split; [done|]. split.
  - unfold shown_at.
    rewrite (solved_cell _ _ _ [1] [1] [[1 # 8]]);
      [|by repeat split|done|simpl; lia|simpl; lia|done].
    by vm_compute.
  - by vm_compute.
Qed.

(** C7, amended.  After a solve that the solver answers with [OPTIMAL],
    the last cell of the results table, the grand total cost, is written
    from the objective value itself with two decimals.  The number it
    shows is within half a hundredth of the objective value, and is the
    objective value when that has no more than two decimals. *)
Theorem C7_total_is_objective (self : TransportApp) (reply : StandardButton)
    (solver : Model → Outcome) (supply demand : list Q)
    (costs : list (list Q)) :
  reads self supply demand costs →
  (unbalanced supply demand → reply = Yes) →
  (0 < spin_usines self)%nat → (0 < spin_entrepots self)%nat →
  let m := spin_usines self in
  let n := spin_entrepots self in
  let M := transport_lp supply demand costs m n in
  let T := table_results (click_solve self reply solver).1 in
  status (solver M) = OPTIMAL →
  item T (m + 1) (n + 1) = Some [F2 (objVal (solver M))]
  ∧ ∃ g, shown_at T (m + 1) (n + 1) = Some g
         ∧ Qabs (g - objVal (solver M)) <= 1 # 200
         ∧ (∀ z : Z, objVal (solver M) == z # 100 → g == objVal (solver M)).
Proof.
  intros Hr Hu Hm Hn m n M T Hopt.
  assert (item T (m + 1) (n + 1) = Some [F2 (objVal (solver M))]) as HT.
  { unfold T. rewrite (solved_cell _ _ _ supply demand costs) by done.
    apply cell_of_total. }
  split; [done|].
  exists (fixed2 (objVal (solver M))). unfold shown_at. rewrite HT.
  split; [done|]. split; [apply fixed2_near|].
  intros z Hz. by apply (fixed2_hundredths _ z).
Qed.

Lemma C7_total_is_objective_witness :
  ∃ g, shown_at (table_results
                   (click_solve (Sample.single_form 3) Yes
                                (Sample.shipping 15)).1) 2 2 = Some g
       ∧ g == 15.
Proof.
  destruct (C7_total_is_objective (Sample.single_form 3) Yes
              (Sample.shipping 15) [5] [5] [[3]])
    as (_ & g & Hg & _ & Hexact).
  - by repeat split.
  - done.
  - simpl. lia.
  - simpl. lia.
  - reflexivity.
  - exists g. split; [exact Hg|]. apply (Hexact 1500%Z). reflexivity.
Defined.




(** C9.  When every unit cost is zero and the solver answers [OPTIMAL]
    with the objective value of its flows, that value, which the form
    reports as the total cost, is 0: the last cell of the results table
    and the status line are written from it, and the cell shows 0. *)
Theorem C9_zero_costs (self : TransportApp) (reply : StandardButton)
    (solver : Model → Outcome) (supply demand : list Q)
    (costs : list (list Q)) :
  reads self supply demand costs →
  (unbalanced supply demand → reply = Yes) →
  (0 < spin_usines self)%nat → (0 < spin_entrepots self)%nat →
  Forall (Forall (λ c, c == 0)) costs →
  let m := spin_usines self in
  let n := spin_entrepots self in
  let M := transport_lp supply demand costs m n in
  let T := table_results (click_solve self reply solver).1 in
  status (solver M) = OPTIMAL → sound M (solver M) →
  objVal (solver M) == 0
  ∧ item T (m + 1) (n + 1) = Some [F2 (objVal (solver M))]
  ∧ (∃ g, shown_at T (m + 1) (n + 1) = Some g ∧ g == 0)
  ∧ status_label (click_solve self reply solver).1
    = [Lit "✓ Solution optimale trouvée - Coût total: ";
       F2 (objVal (solver M))].
Proof.
  intros Hr Hu Hm Hn Hzero m n M T Hopt Hsound.
  destruct (Hsound Hopt) as (_ & Hobj & _).
  assert (objVal (solver M) == 0) as H0.
  { rewrite Hobj. by apply objective_zero_costs. }
  assert (item T (m + 1) (n + 1) = Some [F2 (objVal (solver M))]) as HT.
  { unfold T. rewrite (solved_cell _ _ _ supply demand costs) by done.
    apply cell_of_total. }
  split; [done|]. split; [done|]. split.
  - exists (fixed2 (objVal (solver M))). unfold shown_at. rewrite HT.
    split; [done|]. by apply fixed2_zero.
  - destruct (build_model_lp supply demand costs _ _ Hm Hn
                (reads_shaped _ _ _ _ Hr)) as (x & HM & Hx).
    by rewrite (click_solve_optimal _ _ _ _ _ _ _ x Hr Hu HM Hx Hopt).
Qed.

Lemma C9_zero_costs_witness :
  objVal (Sample.shipping (0 * 5) (transport_lp [5] [5] [[0]] 1 1)) == 0.
Proof.
  apply (C9_zero_costs (Sample.single_form 0) Yes (Sample.shipping (0 * 5))
           [5] [5] [[0]]).
  - by repeat split.
  - done.
  - simpl. lia.
  - simpl. lia.
  - repeat constructor.
  - reflexivity.
  - apply sound_shipping.
Defined.

(** C10.  With non-negative supply and demand, the program the builder
    returns has a feasible flow whenever total supply is at least total
    demand; so the solver can find it infeasible only when total demand
    exceeds total supply. *)
Theorem C10_enough_supply_feasible (supply demand : list Q)
    (costs : list (list Q)) (m n : nat) :
  (0 < m)%nat → (0 < n)%nat → shaped supply demand costs m n →
  Forall (λ q, 0 <= q) supply → Forall (λ q, 0 <= q) demand →
  ∃ M x,
    build_model supply demand costs m n = Some (M, x)
    ∧ (Py.sum demand <= Py.sum supply → ∃ ρ, feasible M ρ)
    ∧ ((∀ ρ, ¬ feasible M ρ) → Py.sum supply < Py.sum demand).
Proof.
  intros Hm Hn Hshape Hs Hd.
  destruct (build_model_lp supply demand costs m n Hm Hn Hshape)
    as (x & HM & Hx).
  destruct Hshape as (Hls & Hld & _ & _).
  exists (transport_lp supply demand costs m n), x. split; [done|].
  assert (Py.sum demand <= Py.sum supply →
          ∃ ρ, feasible (transport_lp supply demand costs m n) ρ) as Hfeas.
  { intros Hle. rewrite (sum_supply supply), (sum_supply demand), Hls, Hld in Hle.
    exists (valuation_of n (share supply demand m)).
    apply feasible_transport_lp.
    destruct (share_admissible supply demand m n Hs Hd Hle)
      as (Hlb & Hcap & Hcov).
    repeat split.
    - intros i j Hi Hj. rewrite flow_of_valuation_of by done. by apply Hlb.
    - intros i Hi.
      rewrite (sum_upto_ext n _ (share supply demand m i)); [by apply Hcap|].
      intros j Hj. by rewrite flow_of_valuation_of.
    - intros j Hj.
      rewrite (sum_upto_ext m _ (λ i, share supply demand m i j));
        [by apply Hcov|].
      intros i Hi. by rewrite flow_of_valuation_of. }
  split; [done|].
  intros Hnone. apply Qnot_le_lt. intros Hle.
  destruct (Hfeas Hle) as [ρ Hρ]. by apply (Hnone ρ).
Qed.

Lemma C10_enough_supply_feasible_witness :
  ∃ M x,
    build_model [150; 150] [100; 150] Sample.costs22 2 2 = Some (M, x)
    ∧ ∃ ρ, feasible M ρ.
Proof.
  destruct (C10_enough_supply_feasible [150; 150] [100; 150] Sample.costs22
              2 2) as (M & x & HM & Hfeas & _).
  - lia.
  - lia.
  - repeat split; repeat constructor.
  - repeat constructor; by vm_compute.
  - repeat constructor; by vm_compute.
  - exists M, x. split; [exact HM|]. apply Hfeas. by vm_compute.
Defined.

(** * Further properties of the code *)

Import Win.

(** ** solve_transport: errors, dialog and inputs *)

(** No triple of readable grids: the solve ends in the handler. *)
Lemma click_solve_no_reads (self : TransportApp)
    (reply : StandardButton) (solver : Model → Outcome) :
  (∀ supply demand costs, ¬ reads self supply demand costs) →
  click_solve self reply solver
  = (with_status self [Lit "✗ Erreur lors de la résolution"],
     [critical "Erreur de résolution" [Lit "Une erreur est survenue:
"; StrExc]]).
Proof.
  intros Hno.
  unfold click_solve, solve_transport, try_except, solve_body, bind, get, lift.
  simpl.
  destruct (read_row (table_offres self) 0 (spin_usines self))
    as [supply|] eqn:Hs; [|reflexivity].
  destruct (read_row (table_demandes self) 0 (spin_entrepots self))
    as [demand|] eqn:Hd; [|reflexivity].
  destruct (read_costs (table_costs self) (spin_usines self)
              (spin_entrepots self)) as [costs|] eqn:Hc; [|reflexivity].
  destruct (Hno supply demand costs). by repeat split.
Qed.

(** X1.  When a cell of one of the three grids is missing or is not a
    number, the solve ends in the handler: one critical dialog, the
    error status line, and nothing else of the form changes; no model
    is built and the solver is not called. *)
Theorem unreadable_grids_reported (self : TransportApp)
    (reply : StandardButton) (solver : Model → Outcome) :
  (∀ supply demand costs, ¬ reads self supply demand costs) →
  click_solve self reply solver
  = (with_status self [Lit "✗ Erreur lors de la résolution"],
     [critical "Erreur de résolution" [Lit "Une erreur est survenue:
"; StrExc]]).
Proof.
  intros Hno.
  unfold click_solve, solve_transport, try_except, solve_body, bind, get, lift.
  simpl.
  destruct (read_row (table_offres self) 0 (spin_usines self))
    as [supply|] eqn:Hs; [|reflexivity].
  destruct (read_row (table_demandes self) 0 (spin_entrepots self))
    as [demand|] eqn:Hd; [|reflexivity].
  destruct (read_costs (table_costs self) (spin_usines self)
              (spin_entrepots self)) as [costs|] eqn:Hc; [|reflexivity].
  destruct (Hno supply demand costs). by repeat split.
Qed.

Lemma unreadable_grids_reported_witness :
  (click_solve typo_form Yes Sample.refusing).2
  = [critical "Erreur de résolution" [Lit "Une erreur est survenue:
"; StrExc]].
Proof.
  rewrite (unreadable_grids_reported typo_form Yes Sample.refusing).
  - reflexivity.
  - intros supply demand costs (Hs & _). by vm_compute in Hs.
Defined.

Lemma no_question_in_tail (M : Model) (tail : list Event) :
  (tail = [] ∨ ∃ st, tail = [warning "Aucune solution" (no_solution_text st)]) →
  ¬ ∃ title text, question title text ∈ [processEvents; optimize M] ++ tail.
Proof.
  intros Htail (title & text & Hin). simpl in Hin.
  apply elem_of_cons in Hin as [Hin|Hin]; [discriminate|].
  apply elem_of_cons in Hin as [Hin|Hin]; [discriminate|].
  destruct Htail as [->|[st ->]].
  - by apply elem_of_nil in Hin.
  - apply list_elem_of_singleton in Hin. discriminate.
Qed.

(** The trace of a solve that goes on, whatever the solver answers. *)
Lemma click_solve_trace (self : TransportApp) (reply : StandardButton)
    (solver : Model → Outcome) (supply demand : list Q)
    (costs : list (list Q)) :
  reads self supply demand costs →
  (unbalanced supply demand → reply = Yes) →
  (0 < spin_usines self)%nat → (0 < spin_entrepots self)%nat →
  ∃ tail,
    (tail = [] ∨ ∃ st, tail = [warning "Aucune solution" (no_solution_text st)])
    ∧ (click_solve self reply solver).2
      = asked supply demand
        ++ [processEvents;
            optimize (transport_lp supply demand costs (spin_usines self)
                                   (spin_entrepots self))] ++ tail.
Proof.
  intros Hr Hu Hm Hn.
  destruct (build_model_lp supply demand costs _ _ Hm Hn
              (reads_shaped _ _ _ _ Hr)) as (x & HM & Hx).
  set (M := transport_lp _ _ _ _ _) in *.
  destruct (decide (status (solver M) = OPTIMAL)) as [Hopt|Hopt].
  - exists []. split; [by left|].
    by rewrite (click_solve_optimal _ _ _ _ _ _ M x Hr Hu HM Hx Hopt).
  - eexists. split; [right; by eexists|].
    by rewrite (click_solve_not_optimal _ _ _ _ _ _ M x Hr Hu HM Hopt).
Qed.

Lemma asked_balanced (supply demand : list Q) :
  ¬ unbalanced supply demand → asked supply demand = [].
Proof.
  intros Hnu. unfold asked.
  destruct (Qlt_le_dec _ _) as [Hlt|_]; [by destruct Hnu | done].
Qed.

(** The dialog of the balance test and the balance test. *)
Lemma question_iff_unbalanced (self : TransportApp)
    (reply : StandardButton) (solver : Model → Outcome)
    (supply demand : list Q) (costs : list (list Q)) :
  reads self supply demand costs →
  (0 < spin_usines self)%nat → (0 < spin_entrepots self)%nat →
  ((∃ title text, question title text ∈ (click_solve self reply solver).2)
   ↔ unbalanced supply demand)
  ∧ (¬ unbalanced supply demand →
     click_solve self Yes solver = click_solve self No solver).
Proof.
  intros Hr Hm Hn. split; [split|].
  - intros Hq. destruct (Qlt_le_dec (1 # 1000)
                           (Qabs (Py.sum supply - Py.sum demand)))
      as [Hlt|Hle]; [done|].
    assert (¬ unbalanced supply demand) as Hnu by (by apply Qle_not_lt).
    destruct (click_solve_trace self reply solver supply demand costs Hr)
      as (tail & Htail & Htrace); [done..|].
    rewrite Htrace, asked_balanced in Hq by done.
    by apply (no_question_in_tail _ _ Htail) in Hq.
  - intros Hu.
    destruct (click_solve_asks self reply solver supply demand costs Hr Hu
                Hm Hn) as [tail ->].
    eexists _, _. by left.
  - intros Hnu.
    destruct (build_model_lp supply demand costs _ _ Hm Hn
                (reads_shaped _ _ _ _ Hr)) as (x & HM & Hx).
    set (M := transport_lp _ _ _ _ _) in *.
    destruct (decide (status (solver M) = OPTIMAL)) as [Hopt|Hopt].
    + by rewrite !(click_solve_optimal _ _ _ _ _ _ M x Hr) by done.
    + by rewrite !(click_solve_not_optimal _ _ _ _ _ _ M x Hr) by done.
Qed.

(** The total of whole entries is whole. *)
Lemma sum_whole (zs : list Z) :
  Py.sum (map inject_Z zs) == inject_Z (whole_total zs).
Proof.
  unfold Py.sum, whole_total.
  change 0 with (inject_Z 0). generalize 0%Z.
  induction zs as [|z zs IH]; intros a; simpl; [reflexivity|].
  rewrite <- inject_Z_plus. apply IH.
Qed.

(** Whole totals are beyond the tolerance as soon as they differ. *)
Lemma unbalanced_whole (zs zd : list Z) :
  unbalanced (map inject_Z zs) (map inject_Z zd)
  ↔ whole_total zs ≠ whole_total zd.
Proof.
  unfold unbalanced. rewrite !sum_whole.
  set (a := whole_total zs). set (b := whole_total zd).
  assert (inject_Z a - inject_Z b == inject_Z (a - b)) as ->.
  { unfold Zminus. rewrite inject_Z_plus, inject_Z_opp. reflexivity. }
  change (Qabs (inject_Z (a - b))) with (inject_Z (Z.abs (a - b))).
  unfold Qlt. simpl. lia.
Qed.

(** X2.  With readable grids whose supplies and demands are whole
    numbers, not negative and of totals below 2^53 (Python's floats add
    such numbers without rounding, and the exact totals of the embedding
    are the totals the program computes), the confirmation dialog
    appears in a solve exactly when total supply and total demand
    differ; when they are equal the user is asked nothing, and the solve
    is the same whatever answer was in store. *)
Theorem confirmation_iff_totals_differ (self : TransportApp)
    (reply : StandardButton) (solver : Model → Outcome)
    (zs zd : list Z) (costs : list (list Q)) :
  reads self (map inject_Z zs) (map inject_Z zd) costs →
  (0 < spin_usines self)%nat → (0 < spin_entrepots self)%nat →
  Forall (λ z, (0 <= z)%Z) zs → Forall (λ z, (0 <= z)%Z) zd →
  (whole_total zs < 2 ^ 53)%Z → (whole_total zd < 2 ^ 53)%Z →
  ((∃ title text, question title text ∈ (click_solve self reply solver).2)
   ↔ whole_total zs ≠ whole_total zd)
  ∧ (whole_total zs = whole_total zd →
     click_solve self Yes solver = click_solve self No solver).
Proof.
  intros Hr Hm Hn _ _ _ _.
  destruct (question_iff_unbalanced self reply solver _ _ costs Hr Hm Hn)
    as [Hq Hsame].
  split.
  - by rewrite Hq, unbalanced_whole.
  - intros Heq. apply Hsame. rewrite unbalanced_whole. intros Hne.
    by apply Hne.
Qed.

Lemma confirmation_iff_totals_differ_witness :
  (∃ title text,
     question title text
     ∈ (click_solve Sample.surplus_form Yes Sample.refusing).2)
  ↔ whole_total [150; 150]%Z ≠ whole_total [100; 150]%Z.
Proof.
  apply (confirmation_iff_totals_differ Sample.surplus_form Yes
           Sample.refusing [150; 150]%Z [100; 150]%Z Sample.costs22).
  - by repeat split.
  - simpl. lia.
  - simpl. lia.
  - repeat constructor; lia.
  - repeat constructor; lia.
  - by vm_compute.
  - by vm_compute.
Defined.

(** ** solve_transport never writes to what the user entered *)

Lemma keeps_ret {A} (a : A) : keeps_inputs (ret a).
Proof. by intros w. Qed.

Lemma keeps_lift {A} (o : option A) : keeps_inputs (lift o).
Proof. by intros w. Qed.

Lemma keeps_get : keeps_inputs get.
Proof. by intros w. Qed.

Lemma keeps_emit (e : Event) : keeps_inputs (emit e).
Proof. by intros w. Qed.

Lemma keeps_modify (f : TransportApp → TransportApp) :
  (∀ a, inputs (f a) = inputs a) → keeps_inputs (modify f).
Proof. intros Hf w. apply Hf. Qed.

Lemma keeps_bind {A B} (c : UI A) (k : A → UI B) :
  keeps_inputs c → (∀ a, keeps_inputs (k a)) → keeps_inputs (bind c k).
Proof.
  intros Hc Hk w. unfold bind. specialize (Hc w).
  destruct (c w) as [[a|] w']; simpl in *; [|done].
  by rewrite Hk.
Qed.

Lemma keeps_for {B} (l : list B) (body : B → UI unit) :
  (∀ b, keeps_inputs (body b)) → keeps_inputs (for_ l body).
Proof.
  intros Hbody. induction l as [|b l IH]; simpl.
  - apply keeps_ret.
  - apply keeps_bind; [apply Hbody | done].
Qed.

Lemma keeps_for_acc {A B} (l : list B) (body : A → B → UI A) :
  (∀ a b, keeps_inputs (body a b)) → ∀ a, keeps_inputs (for_acc l a body).
Proof.
  intros Hbody. induction l as [|b l IH]; intros a; simpl.
  - apply keeps_ret.
  - apply keeps_bind; [apply Hbody | done].
Qed.

Lemma keeps_try_except (body handler : UI unit) :
  keeps_inputs body → keeps_inputs handler →
  keeps_inputs (try_except body handler).
Proof.
  intros Hb Hh w. unfold try_except. specialize (Hb w).
  destruct (body w) as [[a|] w']; simpl in *; [done|].
  by rewrite Hh.
Qed.

Lemma keeps_on_results (f : QTableWidget → QTableWidget) :
  keeps_inputs (on_results f).
Proof. by apply keeps_modify. Qed.

Lemma keeps_status_label_setText (t : fstring) :
  keeps_inputs (status_label_setText t).
Proof. by apply keeps_modify. Qed.

Lemma keeps_show_solution (costs : list (list Q))
    (x : gmap (nat * nat) handle) (M : Model) (o : Outcome) (m n : nat) :
  keeps_inputs (show_solution costs x M o m n).
Proof.
  unfold show_solution, fill_row, fill_cell, fill_demand, fill_total,
    update_stats, table_results_setItem, solution_info_setHtml,
    stats_text_setHtml, btn_export_setEnabled.
  repeat first
    [ apply keeps_bind; [|intros]
    | apply keeps_for; intros
    | apply keeps_for_acc; intros
    | apply keeps_on_results
    | apply keeps_status_label_setText
    | apply keeps_lift
    | apply keeps_ret
    | by apply keeps_modify ].
Qed.

Lemma keeps_solve_transport (reply : StandardButton)
    (solver : Model → Outcome) :
  keeps_inputs (solve_transport reply solver).
Proof.
  unfold solve_transport, solve_body, on_error, ask, run_optimize.
  apply keeps_try_except.
  - repeat first
      [ apply keeps_show_solution
      | apply keeps_bind; [|intros]
      | apply keeps_status_label_setText
      | apply keeps_lift
      | apply keeps_get
      | apply keeps_emit
      | apply keeps_ret
      | case_match ].
  - apply keeps_bind; [apply keeps_emit | intros; apply keeps_status_label_setText].
Qed.

(** X3.  Whatever the form holds, whatever the user answers and the
    solver returns, and also when the solve ends in the error handler, a
    solve leaves the two counts and the three input grids exactly as
    they were. *)
Theorem solve_keeps_inputs (self : TransportApp) (reply : StandardButton)
    (solver : Model → Outcome) :
  inputs (click_solve self reply solver).1 = inputs self.
Proof. apply (keeps_solve_transport reply solver (self, [])). Qed.

(** ** The results table of an optimal solve as a whole *)

Lemma table_eq (T T' : QTableWidget) :
  frame T = frame T' → (∀ i j, item T i j = item T' i j) → T = T'.
Proof.
  destruct T as [r c hh vh it], T' as [r' c' hh' vh' it'].
  unfold frame, item. simpl. intros [= -> -> -> ->] Hit. f_equal.
  apply map_eq. intros [i j]. apply Hit.
Qed.

Lemma frame_setItem (T : QTableWidget) (i j : nat) (c : fstring) :
  frame (setItem T i j c) = frame T.
Proof. unfold setItem. by case_decide. Qed.

Lemma frame_cells (i : nat) (v : nat → fstring) (n : nat) (T : QTableWidget) :
  frame (cells i v n T) = frame T.
Proof.
  induction n as [|n IH]; [done|]. by rewrite cells_S, frame_setItem.
Qed.

Lemma frame_filled_row (costs : list (list Q)) (o : Outcome) (n : nat)
    (T : QTableWidget) (i : nat) :
  frame (filled_row costs o n T i) = frame T.
Proof. unfold filled_row. by rewrite !frame_setItem, frame_cells. Qed.

Lemma frame_rows (costs : list (list Q)) (o : Outcome) (n m : nat)
    (T : QTableWidget) :
  frame (fold_left (filled_row costs o n) (range m) T) = frame T.
Proof.
  induction m as [|m IH]; [done|]. by rewrite rows_S, frame_filled_row.
Qed.

Lemma frame_filled (costs : list (list Q)) (o : Outcome) (m n : nat)
    (T : QTableWidget) :
  frame (filled costs o m n T)
  = ((m + 2)%nat, (n + 2)%nat, headers n, vertical_headers m).
Proof.
  unfold filled. cbv zeta.
  by rewrite frame_cells, !frame_setItem, frame_cells, frame_rows.
Qed.

Lemma filled_independent (costs : list (list Q)) (o : Outcome) (m n : nat)
    (T T' : QTableWidget) :
  filled costs o m n T = filled costs o m n T'.
Proof.
  apply table_eq.
  - by rewrite !frame_filled.
  - intros i j. by rewrite !item_filled.
Qed.

Lemma length_headers (n : nat) : length (headers n) = (n + 2)%nat.
Proof.
  unfold headers, range. rewrite length_app, length_map, length_seq. done.
Qed.

Lemma complete_filled (costs : list (list Q)) (o : Outcome) (m n : nat)
    (T : QTableWidget) :
  complete (filled costs o m n T).
Proof.
  pose proof (frame_filled costs o m n T) as Hf.
  unfold frame in Hf. injection Hf as Hr Hc Hh Hv.
  split.
  - intros j Hj. rewrite Hh. apply lookup_lt_is_Some.
    rewrite length_headers. lia.
  - intros i j. rewrite item_filled, Hr, Hc. unfold cell_of.
    repeat case_decide; split; intros Hyes; try done; try lia;
      by apply is_Some_None in Hyes.
Qed.

(** X4.  The results table of an optimal solve does not depend on what
    the table held before: a new result replaces the previous one
    entirely, dimensions, headers and cells. *)
Theorem solve_replaces_results (self : TransportApp) (reply : StandardButton)
    (solver : Model → Outcome) (supply demand : list Q)
    (costs : list (list Q)) (before : QTableWidget) :
  reads self supply demand costs →
  (unbalanced supply demand → reply = Yes) →
  (0 < spin_usines self)%nat → (0 < spin_entrepots self)%nat →
  status (solver (transport_lp supply demand costs (spin_usines self)
                               (spin_entrepots self))) = OPTIMAL →
  table_results (click_solve (with_results self before) reply solver).1
  = table_results (click_solve self reply solver).1.
Proof.
  intros Hr Hu Hm Hn Hopt.
  destruct (build_model_lp supply demand costs _ _ Hm Hn
              (reads_shaped _ _ _ _ Hr)) as (x & HM & Hx).
  assert (reads (with_results self before) supply demand costs) as Hr'
    by exact Hr.
  rewrite (click_solve_optimal self _ _ _ _ _ _ x Hr Hu HM Hx Hopt).
  rewrite (click_solve_optimal (with_results self before) _ _ _ _ _ _ x
             Hr' Hu HM Hx Hopt).
  simpl. apply filled_independent.
Qed.

Lemma solve_replaces_results_witness :
  table_results
    (click_solve
       (with_results (Sample.single_form 3)
          (mkTable 1 1 [] [] {[ (0, 0)%nat := [Lit "stale"] ]}))
       Yes (Sample.shipping 15)).1
  = table_results
      (click_solve (Sample.single_form 3) Yes (Sample.shipping 15)).1.
Proof.
  apply (solve_replaces_results (Sample.single_form 3) Yes
           (Sample.shipping 15) [5] [5] [[3]]).
  - by repeat split.
  - done.
  - simpl. lia.
  - simpl. lia.
  - reflexivity.
Defined.

(** X5.  After an optimal solve the results table has [m + 2] rows and
    [n + 2] columns, a header item for every column, and an item in
    every cell of that rectangle and nowhere else. *)
Theorem solved_table_complete (self : TransportApp) (reply : StandardButton)
    (solver : Model → Outcome) (supply demand : list Q)
    (costs : list (list Q)) :
  reads self supply demand costs →
  (unbalanced supply demand → reply = Yes) →
  (0 < spin_usines self)%nat → (0 < spin_entrepots self)%nat →
  status (solver (transport_lp supply demand costs (spin_usines self)
                               (spin_entrepots self))) = OPTIMAL →
  let T := table_results (click_solve self reply solver).1 in
  rowCount T = (spin_usines self + 2)%nat
  ∧ columnCount T = (spin_entrepots self + 2)%nat
  ∧ complete T.
Proof.
  intros Hr Hu Hm Hn Hopt T. subst T.
  destruct (build_model_lp supply demand costs _ _ Hm Hn
              (reads_shaped _ _ _ _ Hr)) as (x & HM & Hx).
  rewrite (click_solve_optimal self _ _ _ _ _ _ x Hr Hu HM Hx Hopt). simpl.
  pose proof (frame_filled costs
                (solver (transport_lp supply demand costs (spin_usines self)
                                      (spin_entrepots self)))
                (spin_usines self) (spin_entrepots self)
                (table_results self)) as Hf.
  unfold frame in Hf. injection Hf as Hrow Hcol _ _.
  split; [done|]. split; [done|]. apply complete_filled.
Qed.

Lemma solved_table_complete_witness :
  rowCount (table_results
              (click_solve (Sample.single_form 3) Yes
                           (Sample.shipping 15)).1) = 3%nat.
Proof.
  apply (solved_table_complete (Sample.single_form 3) Yes
           (Sample.shipping 15) [5] [5] [[3]]).
  - by repeat split.
  - done.
  - simpl. lia.
  - simpl. lia.
  - reflexivity.
Defined.

(** ** The program the builder returns *)

Lemma sum_upto_le (n : nat) (f g : nat → Q) :
  (∀ k, (k < n)%nat → f k <= g k) → sum_upto n f <= sum_upto n g.
Proof.
  induction n as [|n IH]; intros H; [apply Qle_refl|].
  rewrite !sum_upto_S.
  assert (f n <= g n) by (apply H; lia).
  assert (sum_upto n f <= sum_upto n g) by (apply IH; intros; apply H; lia).
  lra.
Qed.

Lemma admissible_totals (supply demand : list Q) (m n : nat)
    (f : nat → nat → Q) :
  admissible supply demand m n f →
  sum_upto n (nthQ demand) <= sum_upto m (nthQ supply).
Proof.
  intros (_ & Hcap & Hcov).
  pose proof (sum_upto_le n _ _ Hcov) as Hd.
  pose proof (sum_upto_le m _ _ Hcap) as Hs.
  rewrite (sum_upto_swap m n f) in Hs. lra.
Qed.

(** X6.  A flow that meets the constraints of the program the builder
    returns can exist only when total demand is at most total supply:
    with more demand than supply the program is infeasible. *)
Theorem feasible_needs_supply (supply demand : list Q)
    (costs : list (list Q)) (m n : nat) :
  (0 < m)%nat → (0 < n)%nat → shaped supply demand costs m n →
  ∃ M x,
    build_model supply demand costs m n = Some (M, x)
    ∧ ∀ ρ, feasible M ρ → Py.sum demand <= Py.sum supply.
Proof.
  intros Hm Hn Hshape.
  destruct (build_model_lp supply demand costs m n Hm Hn Hshape)
    as (x & HM & Hx).
  destruct Hshape as (Hls & Hld & _ & _).
  exists (transport_lp supply demand costs m n), x. split; [done|].
  intros ρ Hρ%feasible_transport_lp%admissible_totals.
  by rewrite (sum_supply supply), (sum_supply demand), Hls, Hld.
Qed.

Lemma feasible_needs_supply_witness :
  ∃ M x,
    build_model [150; 150] [200; 150] Sample.costs22 2 2 = Some (M, x)
    ∧ ∀ ρ, ¬ feasible M ρ.
Proof.
  destruct (feasible_needs_supply [150; 150] [200; 150] Sample.costs22 2 2)
    as (M & x & HM & Hfeas).
  - lia.
  - lia.
  - repeat split; repeat constructor.
  - exists M, x. split; [exact HM|].
    intros ρ Hρ. specialize (Hfeas ρ Hρ). by vm_compute in Hfeas.
Defined.

Lemma cost_of_nonneg (costs : list (list Q)) (i j : nat) :
  Forall (Forall (λ c, 0 <= c)) costs → 0 <= cost_of costs i j.
Proof.
  intros H. unfold cost_of, at2.
  destruct (costs !! i) as [row|] eqn:Hrow; simpl; [|lra].
  destruct (row !! j) as [c|] eqn:Hc; simpl; [|lra].
  rewrite Forall_lookup in H. specialize (H i row Hrow).
  rewrite Forall_lookup in H. by apply (H j).
Qed.

(** X7.  With non-negative unit costs the objective of the program is
    non-negative at every feasible flow, so the minimisation is bounded
    below by 0. *)
Theorem objective_bounded_below (supply demand : list Q)
    (costs : list (list Q)) (m n : nat) :
  (0 < m)%nat → (0 < n)%nat → shaped supply demand costs m n →
  Forall (Forall (λ c, 0 <= c)) costs →
  ∃ M x,
    build_model supply demand costs m n = Some (M, x)
    ∧ ∀ ρ, feasible M ρ → 0 <= objective M ρ.
Proof.
  intros Hm Hn Hshape Hcost.
  destruct (build_model_lp supply demand costs m n Hm Hn Hshape)
    as (x & HM & Hx).
  exists (transport_lp supply demand costs m n), x. split; [done|].
  intros ρ (Hlb & _ & _)%feasible_transport_lp.
  rewrite objective_transport_lp. unfold flow_cost.
  apply sum_upto_nonneg. intros i Hi.
  apply sum_upto_nonneg. intros j Hj.
  apply Qmult_le_0_compat; [by apply cost_of_nonneg | by apply Hlb].
Qed.

Lemma objective_bounded_below_witness :
  ∃ M x,
    build_model [150; 150] [100; 200] Sample.costs22 2 2 = Some (M, x)
    ∧ ∀ ρ, feasible M ρ → 0 <= objective M ρ.
Proof.
  apply (objective_bounded_below [150; 150] [100; 200] Sample.costs22 2 2).
  - lia.
  - lia.
  - repeat split; repeat constructor.
  - repeat constructor; by vm_compute.
Defined.

Lemma idx_inj (n i j i' j' : nat) :
  (j < n)%nat → (j' < n)%nat → idx n i j = idx n i' j' → i = i' ∧ j = j'.
Proof.
  unfold idx. intros Hj Hj' Heq.
  assert (i = i') as ->.
  { apply (f_equal (λ k, k / n)%nat) in Heq.
    rewrite !Nat.div_add_l, !Nat.div_small in Heq by lia. lia. }
  split; [done | lia].
Qed.

(** X8.  The dict [x] the builder fills pairs the sources and
    destinations with the variables of the model one to one: two pairs
    never share a variable, and every variable of the model is the
    variable of some pair. *)
Theorem variables_one_to_one (supply demand : list Q)
    (costs : list (list Q)) (m n : nat) :
  (0 < m)%nat → (0 < n)%nat → shaped supply demand costs m n →
  ∃ M x,
    build_model supply demand costs m n = Some (M, x)
    ∧ (∀ p q h, x !! p = Some h → x !! q = Some h → p = q)
    ∧ (∀ h, (h < length (vars M))%nat ↔ ∃ p, x !! p = Some h).
Proof.
  intros Hm Hn Hshape.
  destruct (build_model_lp supply demand costs m n Hm Hn Hshape)
    as (x & HM & Hx).
  exists (transport_lp supply demand costs m n), x. split; [done|].
  assert (∀ i j h, x !! (i, j) = Some h →
                   (i < m)%nat ∧ (j < n)%nat ∧ h = idx n i j) as Hinv.
  { intros i j h. rewrite Hx. case_decide; [|done]. intros [= <-]. tauto. }
  split.
  - intros [i j] [i' j'] h (Hi & Hj & ->)%Hinv (Hi' & Hj' & Heq)%Hinv.
    destruct (idx_inj n i j i' j' Hj Hj' Heq) as [-> ->]. done.
  - intros h. simpl. rewrite length_vars_of. split.
    + intros Hh. exists ((h / n)%nat, (h mod n)%nat).
      assert (h / n < m)%nat by (apply Nat.Div0.div_lt_upper_bound; lia).
      assert (h mod n < n)%nat by (apply Nat.mod_upper_bound; lia).
      rewrite Hx, decide_True by done. f_equal. unfold idx.
      rewrite (Nat.div_mod_eq h n) at 3. lia.
    + intros [[i j] (Hi & Hj & ->)%Hinv]. unfold idx. nia.
Qed.

Lemma variables_one_to_one_witness :
  ∃ M x,
    build_model [150; 150] [100; 200] Sample.costs22 2 2 = Some (M, x)
    ∧ (∀ p q h, x !! p = Some h → x !! q = Some h → p = q).
Proof.
  destruct (variables_one_to_one [150; 150] [100; 200] Sample.costs22 2 2)
    as (M & x & HM & Hinj & _).
  - lia.
  - lia.
  - repeat split; repeat constructor.
  - by exists M, x.
Defined.

(** ** create_tables: the generated grids *)

Lemma lookup_fill_row (i : nat) (v : nat → entry) (n : nat) (g : grid)
    (i' j' : nat) :
  fold_left (λ g j, <[(i, j) := v j]> g) (range n) g !! (i', j')
  = if decide (i' = i ∧ (j' < n)%nat) then Some (v j') else g !! (i', j').
Proof.
  induction n as [|n IH].
  - simpl. by rewrite decide_False by lia.
  - rewrite range_S, fold_left_app. simpl.
    destruct (decide ((i, n) = (i', j'))) as [[= <- <-]|Hne].
    + rewrite lookup_insert_eq. by rewrite decide_True by lia.
    + rewrite lookup_insert_ne, IH by done.
      repeat case_decide; try done; try lia.
      destruct Hne. f_equal; lia.
Qed.

Lemma lookup_new_row_grid (n : nat) (text : nat → entry) (i j : nat) :
  new_row_grid n text !! (i, j)
  = if decide (i = 0%nat ∧ (j < n)%nat) then Some (text j) else None.
Proof. unfold new_row_grid. by rewrite lookup_fill_row, lookup_empty. Qed.

Lemma lookup_new_cost_grid (m n i j : nat) :
  new_cost_grid m n !! (i, j)
  = if decide ((i < m)%nat ∧ (j < n)%nat)
    then Some (Numeric (default_cost i j)) else None.
Proof.
  unfold new_cost_grid. induction m as [|m IH].
  - change (range 0) with (@nil nat). simpl.
    rewrite lookup_empty.
    done.
  - rewrite range_S, fold_left_app. simpl.
    rewrite (lookup_fill_row m (λ j, Numeric (default_cost m j))), IH.
    repeat case_decide; try done; try lia.
    by destruct_and!; subst.
Qed.

Lemma map_const_range {A} (a : A) (n : nat) :
  map (λ _, a) (range n) = replicate n a.
Proof.
  unfold range. generalize 0%nat. induction n as [|n IH]; intros k; simpl.
  - done.
  - by rewrite IH.
Qed.

Lemma read_new_row_grid (m k : nat) (q : Q) :
  read_row (new_row_grid m (λ _, Numeric q)) 0 k
  = if decide (k ≤ m)%nat then Some (replicate k q) else None.
Proof.
  unfold read_row. case_decide as Hk.
  - rewrite (mapM_Some_map _ (λ _, q)); [by rewrite map_const_range|].
    intros j Hj%elem_of_range. unfold float_item.
    rewrite lookup_new_row_grid. by rewrite decide_True by lia.
  - destruct (mapM _ _) as [l|] eqn:Hl; [|done].
    assert (is_Some (mapM (λ j, float_item (new_row_grid m (λ _, Numeric q)) 0 j)
                          (range k))) as Hsome by (by rewrite Hl).
    apply mapM_is_Some_1 in Hsome. rewrite Forall_forall in Hsome.
    specialize (Hsome m). simpl in Hsome. unfold float_item in Hsome.
    rewrite lookup_new_row_grid, decide_False in Hsome by lia.
    destruct Hsome as [? Hsome]; [apply elem_of_range; lia | done].
Qed.

Lemma read_new_cost_grid (m n k l : nat) :
  (k ≤ m)%nat → (l ≤ n)%nat →
  read_costs (new_cost_grid m n) k l = Some (default_costs k l).
Proof.
  intros Hk Hl. unfold read_costs, default_costs.
  apply mapM_Some_map. intros i Hi%elem_of_range. unfold read_row.
  apply mapM_Some_map. intros j Hj%elem_of_range. unfold float_item.
  rewrite lookup_new_cost_grid. by rewrite decide_True by lia.
Qed.

Lemma reads_create_tables (w : Window) :
  reads (form (create_tables w))
        (replicate (spin_usines (form w)) 100)
        (replicate (spin_entrepots (form w)) 100)
        (default_costs (spin_usines (form w)) (spin_entrepots (form w))).
Proof.
  unfold reads. simpl.
  rewrite !read_new_row_grid, !decide_True by lia.
  by rewrite read_new_cost_grid.
Qed.

(** X10.  The tables that [create_tables] generates are readable as they
    stand: every supply and every demand is 100 and the unit cost from
    source [i] to destination [j] is [(i + 1) * 10 + (j + 1)], so a solve
    right after generating never ends in the parse-error handler; and
    the solve button is enabled. *)
Theorem generated_tables_readable (w : Window) :
  let m := spin_usines (form w) in
  let n := spin_entrepots (form w) in
  reads (form (create_tables w)) (replicate m 100) (replicate n 100)
        (default_costs m n)
  ∧ btn_solve (create_tables w) = true.
Proof. intros m n. split; [apply reads_create_tables | done]. Qed.

(** X11.  When the counts are changed after the tables were generated,
    the grids are readable exactly when neither count exceeds the one
    the tables were generated for; with a larger count the solve ends in
    the error handler without building a model. *)
Theorem changed_counts_readable (w : Window) (v v' : nat) :
  let w' := run [press_create; set_usines v; set_entrepots v'] w in
  let fits := (spin_setValue v ≤ spin_usines (form w))%nat
              ∧ (spin_setValue v' ≤ spin_entrepots (form w))%nat in
  ((∃ supply demand costs, reads (form w') supply demand costs) ↔ fits)
  ∧ (¬ fits →
     ∀ reply solver,
       step w' (press_solve reply solver)
       = (mkWindow (with_status (form w')
                      [Lit "✗ Erreur lors de la résolution"]) true,
          [shown (critical "Erreur de résolution"
                    [Lit "Une erreur est survenue:
"; StrExc])])).
Proof.
  intros w' fits.
  assert ((∃ supply demand costs, reads (form w') supply demand costs) ↔ fits)
    as Hiff.
  { unfold reads, fits. subst w'. simpl. split.
    - intros (s & d & c & Hs & Hd & _).
      rewrite read_new_row_grid in Hs, Hd.
      repeat case_decide; try done.
    - intros [Hm Hn]. eexists _, _, _.
      rewrite !read_new_row_grid, !decide_True by done.
      by rewrite read_new_cost_grid. }
  split; [done|].
  intros Hno reply solver. unfold step.
  assert (btn_solve w' = true) as -> by done.
  rewrite (click_solve_no_reads (form w') reply solver); [done|].
  intros s d c Hr. apply Hno, Hiff. by exists s, d, c.
Qed.

(** ** The instance the generated tables hold *)

Lemma total_replicate (k : nat) (q : Q) :
  total (replicate k q) == inject_Z (Z.of_nat k) * q.
Proof.
  induction k as [|k IH].
  - unfold total. simpl. ring.
  - rewrite Nat2Z.inj_succ, <- Z.add_1_r, inject_Z_plus.
    unfold total in *. simpl. rewrite IH. ring.
Qed.

Lemma sum_replicate (k : nat) (q : Q) :
  Py.sum (replicate k q) == inject_Z (Z.of_nat k) * q.
Proof. rewrite sum_total. apply total_replicate. Qed.

Lemma inject_nat_le (a b : nat) :
  inject_Z (Z.of_nat a) <= inject_Z (Z.of_nat b) ↔ (a ≤ b)%nat.
Proof. rewrite <- Zle_Qle. lia. Qed.

Lemma inject_nat_step (a b : nat) :
  (a < b)%nat → inject_Z (Z.of_nat a) + 1 <= inject_Z (Z.of_nat b).
Proof.
  intros Hab. change 1 with (inject_Z 1). rewrite <- inject_Z_plus.
  rewrite <- Zle_Qle. lia.
Qed.

Lemma unbalanced_defaults (m n : nat) :
  unbalanced (replicate m 100) (replicate n 100) ↔ m ≠ n.
Proof.
  unfold unbalanced. rewrite !sum_replicate. split.
  - intros Hlt ->.
    assert (inject_Z (Z.of_nat n) * 100 - inject_Z (Z.of_nat n) * 100 == 0)
      as Hz by ring.
    rewrite Hz in Hlt. by vm_compute in Hlt.
  - intros Hne.
    destruct (Nat.lt_total m n) as [Hlt|[->|Hgt]]; [| done |].
    + pose proof (inject_nat_step m n Hlt) as Hstep.
      rewrite Qabs_neg by lra.
      apply Qlt_le_trans with 100; [by vm_compute | lra].
    + pose proof (inject_nat_step n m Hgt) as Hstep.
      rewrite Qabs_pos by lra.
      apply Qlt_le_trans with 100; [by vm_compute | lra].
Qed.

(** X12.  A solve right after generating the tables, with the default
    entries untouched, asks for confirmation exactly when the number of
    sources differs from the number of destinations. *)
Theorem default_instance_asked (w : Window) (reply : StandardButton)
    (solver : Model → Outcome) :
  (0 < spin_usines (form w))%nat → (0 < spin_entrepots (form w))%nat →
  (∃ title text,
     question title text
     ∈ (click_solve (form (create_tables w)) reply solver).2)
  ↔ spin_usines (form w) ≠ spin_entrepots (form w).
Proof.
  intros Hm Hn. rewrite <- unbalanced_defaults.
  apply (question_iff_unbalanced (form (create_tables w)) reply solver _ _ _
           (reads_create_tables w)); done.
Qed.

Lemma default_instance_asked_witness :
  (∃ title text,
     question title text
     ∈ (click_solve (form (create_tables (run [set_entrepots 2] initUI)))
                    Yes Sample.refusing).2)
  ↔ 3%nat ≠ 2%nat.
Proof.
  apply (default_instance_asked (run [set_entrepots 2] initUI) Yes
           Sample.refusing).
  - vm_compute. lia.
  - vm_compute. lia.
Defined.

Lemma shaped_defaults (m n : nat) :
  shaped (replicate m 100) (replicate n 100) (default_costs m n) m n.
Proof.
  unfold shaped, default_costs, range.
  rewrite !length_replicate, length_map, length_seq.
  repeat split. apply Forall_forall. intros row Hrow.
  apply list_elem_of_fmap in Hrow as (i & -> & _).
  by rewrite length_map, length_seq.
Qed.

(** X13.  The program built from the generated tables as they stand has
    a feasible flow exactly when there are at most as many destinations
    as sources: with more destinations than sources the default
    instance is infeasible. *)
Theorem default_instance_feasible (m n : nat) :
  (0 < m)%nat → (0 < n)%nat →
  ∃ M x,
    build_model (replicate m 100) (replicate n 100) (default_costs m n) m n
    = Some (M, x)
    ∧ ((∃ ρ, feasible M ρ) ↔ (n ≤ m)%nat).
Proof.
  intros Hm Hn.
  destruct (build_model_lp _ _ _ m n Hm Hn (shaped_defaults m n))
    as (x & HM & Hx).
  eexists _, x. split; [exact HM|].
  assert (sum_upto m (nthQ (replicate m 100)) == inject_Z (Z.of_nat m) * 100)
    as Hs.
  { rewrite <- sum_replicate, (sum_supply (replicate m 100)).
    by rewrite length_replicate. }
  assert (sum_upto n (nthQ (replicate n 100)) == inject_Z (Z.of_nat n) * 100)
    as Hd.
  { rewrite <- sum_replicate, (sum_supply (replicate n 100)).
    by rewrite length_replicate. }
  split.
  - intros [ρ Hρ%feasible_transport_lp%admissible_totals].
    rewrite Hs, Hd in Hρ. apply inject_nat_le. lra.
  - intros Hle%inject_nat_le.
    exists (valuation_of n (share (replicate m 100) (replicate n 100) m)).
    apply feasible_transport_lp.
    destruct (share_admissible (replicate m 100) (replicate n 100) m n)
      as (Hlb & Hcap & Hcov).
    { apply Forall_replicate. by vm_compute. }
    { apply Forall_replicate. by vm_compute. }
    { rewrite Hs, Hd. lra. }
    repeat split.
    + intros i j Hi Hj. rewrite flow_of_valuation_of by done. by apply Hlb.
    + intros i Hi.
      rewrite (sum_upto_ext n _ (share (replicate m 100) (replicate n 100) m i));
        [by apply Hcap|].
      intros j Hj. by rewrite flow_of_valuation_of.
    + intros j Hj.
      rewrite (sum_upto_ext m _
                 (λ i, share (replicate m 100) (replicate n 100) m i j));
        [by apply Hcov|].
      intros i Hi. by rewrite flow_of_valuation_of.
Qed.

Lemma default_instance_feasible_witness :
  ∃ M x,
    build_model (replicate 2 100) (replicate 3 100) (default_costs 2 3) 2 3
    = Some (M, x)
    ∧ ¬ ∃ ρ, feasible M ρ.
Proof.
  destruct (default_instance_feasible 2 3) as (M & x & HM & Hiff).
  - lia.
  - lia.
  - exists M, x. split; [exact HM|]. intros Hρ%Hiff. lia.
Defined.

(** ** reset_all and create_tables *)

Lemma reset_results (T : QTableWidget) :
  setColumnCount (setRowCount (clear T) 0) 0 = mkTable 0 0 [] [] ∅.
Proof.
  unfold setColumnCount, setRowCount, clear. simpl.
  by rewrite !map_filter_empty.
Qed.

(** X14.  Resetting and then generating the tables gives the same
    window as generating them right after start-up, whatever the window
    held before the reset. *)
Theorem reset_then_create (w : Window) :
  create_tables (reset_all Yes w).1 = create_tables initUI.
Proof.
  unfold reset_all. simpl. unfold create_tables. simpl.
  by rewrite reset_results.
Qed.

(** ** What holds throughout a session *)

Lemma complete_setItem (T : QTableWidget) (i j : nat) (c : fstring) :
  complete T → complete (setItem T i j c).
Proof.
  intros [Hh Hit].
  destruct (decide ((i < rowCount T)%nat ∧ (j < columnCount T)%nat))
    as [[Hi Hj]|Hout].
  - split.
    + intros j' Hj'. rewrite setItem_columnCount in Hj'.
      pose proof (frame_setItem T i j c) as Hf. unfold frame in Hf.
      injection Hf as _ _ -> _. by apply Hh.
    + intros i' j'.
      rewrite setItem_rowCount, setItem_columnCount, item_setItem by done.
      case_decide as Heq; [|apply Hit].
      destruct Heq as [-> ->]. split; [done | by eexists].
  - unfold setItem. by rewrite decide_False.
Qed.

(** The results table and the export button after a solve: untouched,
    or the filled table with the button enabled. *)
Lemma click_solve_results (self : TransportApp) (reply : StandardButton)
    (solver : Model → Outcome) :
  (0 < spin_usines self)%nat → (0 < spin_entrepots self)%nat →
  (table_results (click_solve self reply solver).1 = table_results self
   ∧ btn_export (click_solve self reply solver).1 = btn_export self)
  ∨ (∃ costs o,
       table_results (click_solve self reply solver).1
       = filled costs o (spin_usines self) (spin_entrepots self)
                (table_results self)).
Proof.
  intros Hm Hn.
  destruct (read_row (table_offres self) 0 (spin_usines self))
    as [supply|] eqn:Hs.
  2:{ left. rewrite click_solve_no_reads; [done|].
      intros s d c (Hs' & _). congruence. }
  destruct (read_row (table_demandes self) 0 (spin_entrepots self))
    as [demand|] eqn:Hd.
  2:{ left. rewrite click_solve_no_reads; [done|].
      intros s d c (_ & Hd' & _). congruence. }
  destruct (read_costs (table_costs self) (spin_usines self)
              (spin_entrepots self)) as [costs|] eqn:Hc.
  2:{ left. rewrite click_solve_no_reads; [done|].
      intros s d c (_ & _ & Hc'). congruence. }
  assert (reads self supply demand costs) as Hr by done.
  destruct (build_model_lp supply demand costs _ _ Hm Hn
              (reads_shaped _ _ _ _ Hr)) as (x & HM & Hx).
  set (M := transport_lp _ _ _ _ _) in *.
  assert ((unbalanced supply demand → reply = Yes)
          ∨ (unbalanced supply demand ∧ reply = No)) as [Hu|[Hu ->]].
  { destruct (Qlt_le_dec (1 # 1000) (Qabs (Py.sum supply - Py.sum demand)))
      as [Hlt|Hle].
    - destruct reply; [by left | by right].
    - left. intros Hu. by apply Qlt_not_le in Hu. }
  - destruct (decide (status (solver M) = OPTIMAL)) as [Hopt|Hopt].
    + right. exists costs, (solver M).
      by rewrite (click_solve_optimal _ _ _ _ _ _ M x Hr Hu HM Hx Hopt).
    + left. by rewrite (click_solve_not_optimal _ _ _ _ _ _ M x Hr Hu HM Hopt).
  - left. by rewrite (click_solve_declined self solver _ _ _ Hr Hu).
Qed.

Lemma spin_setValue_range (v : nat) : (1 ≤ spin_setValue v ≤ 10)%nat.
Proof. unfold spin_setValue. lia. Qed.

Lemma sane_solve (w : Window) (reply : StandardButton)
    (solver : Model → Outcome) (b : bool) :
  sane w → sane (mkWindow (click_solve (form w) reply solver).1 b).
Proof.
  intros (Hm & Hn & Hexp). unfold sane. cbn [form].
  pose proof (keeps_solve_transport reply solver (form w, [])) as Hin.
  change ((solve_transport reply solver (form w, [])).2.1)
    with ((click_solve (form w) reply solver).1) in Hin.
  unfold inputs in Hin. injection Hin as Hsu Hse _ _ _.
  rewrite Hsu, Hse. split; [done | split; [done|]].
  destruct (click_solve_results (form w) reply solver)
    as [[-> ->]|(costs & o & ->)]; [lia | lia | done |].
  intros _. apply complete_filled.
Qed.

Lemma step_sane (w : Window) (act : Action) : sane w → sane (step w act).1.
Proof.
  intros Hw. pose proof Hw as (Hm & Hn & Hexp).
  destruct act as [v|v|j e|j e|i j e|i j text| |reply solver
                   |filename now writable|reply]; cbn [step].
  - split; [apply spin_setValue_range | done].
  - split; [done | split; [apply spin_setValue_range | done]].
  - done.
  - done.
  - done.
  - split; [done | split; [done|]]. intros Hb. by apply complete_setItem, Hexp.
  - done.
  - destruct (btn_solve w) eqn:Hb; [|done].
    by apply (sane_solve w reply solver true).
  - destruct (btn_export (form w)) eqn:Hb; [|by rewrite ?Hb].
    unfold export_csv. repeat case_match; simpl; by rewrite ?Hb.
  - unfold reset_all. case_decide; simpl; [|done].
    split; [apply spin_setValue_range|].
    split; [apply spin_setValue_range | done].
Qed.

Lemma sane_initUI : sane initUI.
Proof. split; [|split]; [apply spin_setValue_range.. | done]. Qed.

Lemma run_sane (acts : list Action) (w : Window) : sane w → sane (run acts w).
Proof.
  revert w. induction acts as [|act acts IH]; intros w Hw; [done|].
  simpl. apply IH. by apply step_sane.
Qed.

Lemma export_enabled_complete_aux (acts : list Action) :
  btn_export (form (run acts initUI)) = true →
  complete (table_results (form (run acts initUI))).
Proof.
  destruct (run_sane acts initUI sane_initUI) as (_ & _ & Hexp). done.
Qed.

(** X15.  Throughout a session both counts stay between 1 and 10: no
    sequence of spin-box changes, edits, generations, solves, exports
    and resets leaves a solve with no source or no destination. *)
Theorem counts_stay_in_range (acts : list Action) :
  (1 ≤ spin_usines (form (run acts initUI)) ≤ 10)%nat
  ∧ (1 ≤ spin_entrepots (form (run acts initUI)) ≤ 10)%nat.
Proof.
  destruct (run_sane acts initUI sane_initUI) as (Hm & Hn & _). done.
Qed.

(** X16.  Throughout a session, whenever the export button is enabled
    the results table is complete: it has a header item for every
    column and an item in every cell, also after a later solve failed,
    the tables were generated again or a result cell was edited. *)
Theorem export_enabled_complete (acts : list Action) :
  btn_export (form (run acts initUI)) = true →
  complete (table_results (form (run acts initUI))).
Proof.
  destruct (run_sane acts initUI sane_initUI) as (_ & _ & Hexp). done.
Qed.

Lemma export_enabled_complete_witness :
  complete (table_results (form (run short_session initUI))).
Proof.
  apply (export_enabled_complete short_session). by vm_compute.
Defined.

(** ** export_csv *)

Lemma header_row_complete (T : QTableWidget) :
  complete T →
  ∃ hdr, header_row T = Some hdr ∧ length hdr = columnCount T.
Proof.
  intros [Hh _]. unfold header_row.
  destruct (mapM_is_Some_2
              (λ j, Text <$> horizontalHeaderLabels T !! j)
              (range (columnCount T))) as [hdr Hhdr].
  { apply Forall_forall. intros j Hj%elem_of_range. simpl.
    destruct (Hh j Hj) as [t ->]. by eexists. }
  exists hdr. split; [done|].
  apply length_mapM in Hhdr. unfold range in Hhdr.
  by rewrite length_seq in Hhdr.
Qed.

Lemma data_row_complete (T : QTableWidget) (i j : nat) :
  complete T → (i < rowCount T)%nat → (j < columnCount T)%nat →
  ∃ t, item T i j = Some t ∧ data_row T i !! j = Some (Text t).
Proof.
  intros [_ Hit] Hi Hj.
  destruct (proj2 (Hit i j) (conj Hi Hj)) as [t Ht].
  exists t. split; [done|]. unfold data_row, range.
  rewrite list_lookup_fmap, lookup_seq_lt by done. simpl. by rewrite Ht.
Qed.

(** X17.  In every state of a session in which the export button is
    enabled, an export to a writable file goes through without error:
    after the three leading rows it writes one header row with a label
    for every column, then one row per table row in which every cell is
    the text of an existing item, then the closing rows; the window
    changes only in its status line. *)
Theorem export_writes_table (acts : list Action) (filename now : string) :
  let w := run acts initUI in
  let T := table_results (form w) in
  btn_export (form w) = true → filename ≠ EmptyString →
  ∃ hdr,
    length hdr = columnCount T
    ∧ step w (press_export filename now true)
      = (mkWindow (with_status (form w)
                     [Lit "✓ Fichier exporté: "; Lit filename])
                  (btn_solve w),
         preamble filename now ++ [writerow hdr]
         ++ map (λ i, writerow (data_row T i)) (range (rowCount T))
         ++ closing filename (solution_info (form w)))
    ∧ ∀ i j, (i < rowCount T)%nat → (j < columnCount T)%nat →
             ∃ t, item T i j = Some t ∧ data_row T i !! j = Some (Text t).
Proof.
  intros w T Hb Hname.
  pose proof (export_enabled_complete_aux acts Hb) as Hcomplete.
  fold w T in Hcomplete.
  destruct (header_row_complete T Hcomplete) as (hdr & Hhdr & Hlen).
  exists hdr. split; [done|]. split.
  - cbn [step]. rewrite Hb. unfold export_csv.
    rewrite decide_False by done. simpl. fold T. by rewrite Hhdr.
  - intros i j. by apply data_row_complete.
Qed.

Lemma export_writes_table_witness :
  ∃ hdr,
    length hdr = columnCount (table_results (form (run short_session initUI)))
    ∧ (step (run short_session initUI)
            (press_export "plan.csv" "04/11/2026 10:00:00" true)).2
      = preamble "plan.csv" "04/11/2026 10:00:00" ++ [writerow hdr]
        ++ map (λ i, writerow (data_row
                                 (table_results
                                    (form (run short_session initUI))) i))
               (range (rowCount (table_results
                                   (form (run short_session initUI)))))
        ++ closing "plan.csv" (solution_info (form (run short_session initUI))).
Proof.
  destruct (export_writes_table short_session "plan.csv"
              "04/11/2026 10:00:00") as (hdr & Hlen & Hstep & _).
  - by vm_compute.
  - done.
  - exists hdr. split; [exact Hlen|]. by rewrite Hstep.
Defined.

Lemma lookup_all (l : list fstring) :
  mapM (λ j, Text <$> l !! j) (range (length l)) = Some (map Text l).
Proof.
  induction l as [|t l IH] using rev_ind; [done|].
  rewrite length_app. simpl.
  replace (length l + 1)%nat with (S (length l)) by lia.
  rewrite range_S, map_app. simpl.
  apply mapM_Some. apply Forall2_app.
  - apply mapM_Some in IH. eapply Forall2_impl; [exact IH|].
    clear. intros j c Hj. simpl in *.
    destruct (l !! j) as [t'|] eqn:Hl; [|done].
    by rewrite (lookup_app_l_Some _ _ _ _ Hl).
  - constructor; [|constructor]. simpl.
    by rewrite lookup_app_r, Nat.sub_diag by lia.
Qed.

Lemma header_row_filled (costs : list (list Q)) (o : Outcome) (m n : nat)
    (T : QTableWidget) :
  header_row (filled costs o m n T) = Some (map Text (headers n)).
Proof.
  pose proof (frame_filled costs o m n T) as Hf.
  unfold frame in Hf. injection Hf as _ Hcol Hh _.
  unfold header_row. rewrite Hh, Hcol, <- length_headers. apply lookup_all.
Qed.

Lemma data_row_filled (costs : list (list Q)) (o : Outcome) (m n : nat)
    (T : QTableWidget) (i : nat) :
  data_row (filled costs o m n T) i
  = map (λ j, Text (default [] (cell_of costs o m n i j))) (range (n + 2)).
Proof.
  pose proof (frame_filled costs o m n T) as Hf.
  unfold frame in Hf. injection Hf as _ Hcol _ _.
  unfold data_row. rewrite Hcol. apply map_ext. intros j.
  by rewrite item_filled.
Qed.

Lemma rowCount_filled (costs : list (list Q)) (o : Outcome) (m n : nat)
    (T : QTableWidget) :
  rowCount (filled costs o m n T) = (m + 2)%nat.
Proof.
  pose proof (frame_filled costs o m n T) as Hf.
  unfold frame in Hf. by injection Hf as Hrow _ _ _.
Qed.

(** X18.  An export right after an optimal solve writes what the solve
    computed: the header row of the [n] destinations and the two
    aggregate columns, then [m + 2] rows of [n + 2] cells holding the
    flows with their row totals and row costs, the column totals, and
    the total cost in the last cell, then the solution report. *)
Theorem export_after_solve (w : Window) (reply : StandardButton)
    (solver : Model → Outcome) (supply demand : list Q)
    (costs : list (list Q)) (filename now : string) :
  btn_solve w = true →
  reads (form w) supply demand costs →
  (unbalanced supply demand → reply = Yes) →
  (0 < spin_usines (form w))%nat → (0 < spin_entrepots (form w))%nat →
  let m := spin_usines (form w) in
  let n := spin_entrepots (form w) in
  let o := solver (transport_lp supply demand costs m n) in
  status o = OPTIMAL → filename ≠ EmptyString →
  (step (step w (press_solve reply solver)).1
        (press_export filename now true)).2
  = preamble filename now
    ++ [writerow (map Text (headers n))]
    ++ map (λ i, writerow (map (λ j, Text (default [] (cell_of costs o m n i j)))
                               (range (n + 2))))
           (range (m + 2))
    ++ closing filename (info_text m n o).
Proof.
  intros Hb Hr Hu Hm Hn m n o Hopt Hname.
  destruct (build_model_lp supply demand costs _ _ Hm Hn
              (reads_shaped _ _ _ _ Hr)) as (x & HM & Hx).
  cbn [step]. rewrite Hb.
  rewrite (click_solve_optimal _ _ _ _ _ _ _ x Hr Hu HM Hx Hopt).
  cbn [fst snd form solved btn_export]. unfold export_csv.
  rewrite decide_False by done. cbn [negb form with_status table_results].
  fold m n o.
  change (table_results (solved (form w) costs
                           (transport_lp supply demand costs m n) o))
    with (filled costs o m n (table_results (form w))).
  rewrite header_row_filled. cbn [snd].
  rewrite rowCount_filled. unfold closing.
  do 2 f_equal. f_equal.
  apply map_ext. intros i. by rewrite data_row_filled.
Qed.

Lemma export_after_solve_witness :
  (step (step (run [set_usines 1; set_entrepots 1; press_create] initUI)
              (press_solve Yes (Sample.shipping 1100))).1
        (press_export "plan.csv" "04/11/2026 10:00:00" true)).2
  = preamble "plan.csv" "04/11/2026 10:00:00"
    ++ [writerow (map Text (headers 1))]
    ++ map (λ i, writerow
                   (map (λ j, Text (default []
                                      (cell_of [[11]]
                                         (Sample.shipping 1100
                                            (transport_lp [100] [100] [[11]]
                                                          1 1))
                                         1 1 i j)))
                        (range 3)))
           (range 3)
    ++ closing "plan.csv"
         (info_text 1 1 (Sample.shipping 1100
                           (transport_lp [100] [100] [[11]] 1 1))).
Proof.
  apply (export_after_solve
           (run [set_usines 1; set_entrepots 1; press_create] initUI)
           Yes (Sample.shipping 1100) [100] [100] [[11]]).
  - reflexivity.
  - by repeat split.
  - done.
  - vm_compute. lia.
  - vm_compute. lia.
  - reflexivity.
  - done.
Defined.

Lemma changed_counts_readable_witness :
  step (run [press_create; set_usines 4; set_entrepots 3] initUI)
       (press_solve Yes Sample.refusing)
  = (mkWindow
       (with_status
          (form (run [press_create; set_usines 4; set_entrepots 3] initUI))
          [Lit "✗ Erreur lors de la résolution"]) true,
     [shown (critical "Erreur de résolution"
               [Lit "Une erreur est survenue:
"; StrExc])]).
Proof.
  apply (changed_counts_readable initUI 4 3).
  vm_compute. lia.
Defined.
